(** * ALLANIS_VENDAS: cart, checkout, cash register and installment tracker

    A shallow embedding of the business rules of the point-of-sale front end
    (src/pages/Sales.tsx, src/pages/CashFlow.tsx, src/pages/Installments.tsx,
    src/pages/Stock.tsx, src/components/StockModal.tsx) over an explicit
    model of the tables of schema.sql.

    Conventions of the embedding:
    - JavaScript numbers that hold money are rationals ([Q]); the rounding of
      IEEE doubles and the values NaN and Infinity are not modelled.
      Quantities and stock counts are integers ([Z]): the column
      [stock_quantity] is an [integer] and the form fields go through
      [parseInt].
    - Identifiers (uuid columns) and names are strings.
    - Dates are day numbers; the clock readings of one handler run fall on
      one day.
    - A request to the data store either answers or fails; which requests
      fail is an input of every handler (the records [Env]).  A handler
      that does not look at the [error] of a response goes on as the source
      does.
    - The operator is logged in: [user?.id] is a string.
    - [alert(...)] is the value a handler returns next to the new store. *)

From Stdlib Require Import List ZArith QArith Qminmax String Ascii Bool Lia.
From Stdlib Require Import Permutation Sorted DecimalString.
From Stdlib Require OrderedTypeEx.
Import ListNotations.

Local Open Scope string_scope.
Local Open Scope list_scope.
Local Open Scope Z_scope.

(** ** JavaScript helpers *)

(** [a < b] on numbers. *)
Definition Qltb (a b : Q) : bool := negb (Qle_bool b a).

(** [Array.prototype.find]. *)
Definition js_find {A : Type} (p : A -> bool) (l : list A) : option A :=
  List.find p l.

(** [`${n}`] for a non-negative integer. *)
Definition string_of_nat (n : nat) : string :=
  NilEmpty.string_of_uint (Nat.to_uint n).

(** ** The data store (schema.sql and the supabase client) *)

Module Store.

(** Table [products], with the columns the pages select. *)
Record Product := mkProduct {
  id : string;
  name : string;
  code : string;
  price : Q;
  stock_quantity : Z
}.

Record Client := mkClient {
  client_id : string;
  client_name : string
}.

Record Sale := mkSale {
  sale_id : string;
  sale_client_id : string;
  sale_user_id : string;
  total_amount : Q;
  payment_method : string
}.

Record SaleItem := mkSaleItem {
  item_sale_id : string;
  item_product_id : string;
  item_quantity : Z;
  unit_price : Q
}.

Inductive InstallmentStatus := pending | paid | overdue.

(** Dates are day numbers. *)
Record Installment := mkInstallment {
  inst_sale_id : string;
  installment_number : Z;
  due_date : Z;
  inst_amount : Q;
  inst_status : InstallmentStatus
}.

Inductive RegisterStatus := open | closed.

Record CashRegister := mkCashRegister {
  register_id : string;
  register_user_id : string;
  opened_at : Z;
  closed_at : option Z;
  initial_balance : Q;
  final_balance : option Q;
  status : RegisterStatus
}.

Inductive TransactionType :=
  sale | installment_payment | opening | closing | withdrawal | deposit.

Record Transaction := mkTransaction {
  tx_register_id : string;
  tx_sale_id : option string;
  tx_installment_id : option string;
  description : string;
  amount : Q;
  type : TransactionType;
  created_at : Z
}.

Record Purchase := mkPurchase {
  purchase_product_id : string;
  purchase_quantity : Z
}.

Record t := mkStore {
  products : list Product;
  sales : list Sale;
  sale_items : list SaleItem;
  installments : list Installment;
  cash_registers : list CashRegister;
  cash_transactions : list Transaction;
  purchases : list Purchase
}.

(** What a request answers: [{ data, error }]. *)
Inductive Response (A : Type) :=
| Data (data : A)
| Error (message : string).
Arguments Data {A} data.
Arguments Error {A} message.

(** [.single()]: the row when exactly one row matches, an error (that the
    callers of this file never read) otherwise. *)
Definition single {A : Type} (rows : list A) : option A :=
  match rows with
  | [r] => Some r
  | _ => None
  end.

Definition with_stock (p : Product) (q : Z) : Product :=
  {| id := id p; name := name p; code := code p; price := price p;
     stock_quantity := q |}.

(** [from('products').update({ stock_quantity: q }).eq('id', pid)] *)
Definition update_stock (pid : string) (q : Z) (st : t) : t :=
  {| products := map (fun p => if String.eqb (id p) pid
                               then with_stock p q else p) (products st);
     sales := sales st;
     sale_items := sale_items st;
     installments := installments st;
     cash_registers := cash_registers st;
     cash_transactions := cash_transactions st;
     purchases := purchases st |}.

(** [from('products').select('stock_quantity').eq('id', pid).single()] *)
Definition select_stock (pid : string) (st : t) : option Z :=
  option_map stock_quantity
    (single (filter (fun p => String.eqb (id p) pid) (products st))).

Definition insert_sale (row : Sale) (st : t) : t :=
  {| products := products st;
     sales := sales st ++ [row];
     sale_items := sale_items st;
     installments := installments st;
     cash_registers := cash_registers st;
     cash_transactions := cash_transactions st;
     purchases := purchases st |}.

Definition insert_sale_items (rows : list SaleItem) (st : t) : t :=
  {| products := products st;
     sales := sales st;
     sale_items := sale_items st ++ rows;
     installments := installments st;
     cash_registers := cash_registers st;
     cash_transactions := cash_transactions st;
     purchases := purchases st |}.

Definition insert_installments (rows : list Installment) (st : t) : t :=
  {| products := products st;
     sales := sales st;
     sale_items := sale_items st;
     installments := installments st ++ rows;
     cash_registers := cash_registers st;
     cash_transactions := cash_transactions st;
     purchases := purchases st |}.

Definition insert_transaction (row : Transaction) (st : t) : t :=
  {| products := products st;
     sales := sales st;
     sale_items := sale_items st;
     installments := installments st;
     cash_registers := cash_registers st;
     cash_transactions := cash_transactions st ++ [row];
     purchases := purchases st |}.

Definition insert_register (row : CashRegister) (st : t) : t :=
  {| products := products st;
     sales := sales st;
     sale_items := sale_items st;
     installments := installments st;
     cash_registers := cash_registers st ++ [row];
     cash_transactions := cash_transactions st;
     purchases := purchases st |}.

Definition insert_purchase (row : Purchase) (st : t) : t :=
  {| products := products st;
     sales := sales st;
     sale_items := sale_items st;
     installments := installments st;
     cash_registers := cash_registers st;
     cash_transactions := cash_transactions st;
     purchases := purchases st ++ [row] |}.

Definition is_open (s : RegisterStatus) : bool :=
  match s with open => true | closed => false end.

(** [from('cash_registers').select(..).eq('user_id', user)
      .eq('status', 'open').single()] *)
Definition open_registers (user : string) (st : t) : list CashRegister :=
  filter (fun r => String.eqb (register_user_id r) user && is_open (status r))
         (cash_registers st).

Definition select_open_register (user : string) (st : t)
  : option CashRegister :=
  single (open_registers user st).

(** [from('cash_registers').update({ status: 'closed', closed_at: time,
      final_balance: b }).eq('id', rid)] *)
Definition close_register (rid : string) (time : Z) (b : Q) (st : t) : t :=
  {| products := products st;
     sales := sales st;
     sale_items := sale_items st;
     installments := installments st;
     cash_registers :=
       map (fun r => if String.eqb (register_id r) rid
                     then {| register_id := register_id r;
                             register_user_id := register_user_id r;
                             opened_at := opened_at r;
                             closed_at := Some time;
                             initial_balance := initial_balance r;
                             final_balance := Some b;
                             status := closed |}
                     else r) (cash_registers st);
     cash_transactions := cash_transactions st;
     purchases := purchases st |}.

(** Two stores that differ at most in the stock of their products. *)
Definition same_but_stock (st st' : t) : Prop :=
  map id (products st') = map id (products st) /\
  sales st' = sales st /\
  sale_items st' = sale_items st /\
  installments st' = installments st /\
  cash_registers st' = cash_registers st /\
  cash_transactions st' = cash_transactions st /\
  purchases st' = purchases st.

(** The operator has an open register. *)
Definition has_open_register (user : string) (st : t) : Prop :=
  exists r, In r (cash_registers st) /\
            register_user_id r = user /\ status r = open.

Definition stock_nonneg (ps : list Product) : Prop :=
  Forall (fun p => 0 <= stock_quantity p) ps.

(** The spec's wording of step 4: the stock of the product of a line goes
    down by the quantity of the line. *)
Definition decrement (pid : string) (q : Z) (ps : list Product)
  : list Product :=
  map (fun p => if String.eqb (id p) pid
                then with_stock p (stock_quantity p - q) else p) ps.

End Store.

(** ** Handlers: a store that is threaded through, and exceptions

    A handler body is a computation over the store that returns a value or
    throws.  A throw keeps the store as the requests before it left it:
    nothing in the source undoes a request. *)

Inductive Res (A : Type) :=
| Ok (value : A)
| Throw (message : string).
Arguments Ok {A} value.
Arguments Throw {A} message.

Definition M (A : Type) : Type := Store.t -> Store.t * Res A.

Definition ret {A : Type} (a : A) : M A := fun st => (st, Ok a).

Definition throw {A : Type} (message : string) : M A :=
  fun st => (st, Throw message).

Definition bind {A B : Type} (c : M A) (k : A -> M B) : M B :=
  fun st =>
    match c st with
    | (st', Ok a) => k a st'
    | (st', Throw e) => (st', Throw e)
    end.

(** A write request: refused with [error], or applied to the store. *)
Definition write (error : option string) (f : Store.t -> Store.t)
  : M (Store.Response unit) :=
  fun st =>
    match error with
    | Some e => (st, Ok (Store.Error e))
    | None => (f st, Ok (Store.Data tt))
    end.

(** A read request. *)
Definition read {A : Type} (f : Store.t -> Store.Response A)
  : M (Store.Response A) :=
  fun st => (st, Ok (f st)).

Declare Scope handler_scope.
Delimit Scope handler_scope with handler.
Notation "x <- c ;; k" := (bind c (fun x => k))
  (at level 61, c at next level, right associativity) : handler_scope.
Notation "c ;;; k" := (bind c (fun _ => k))
  (at level 61, right associativity) : handler_scope.

(** [for (const x of l) { await body(x) }] *)
Fixpoint for_of {A : Type} (l : list A) (body : A -> M unit) : M unit :=
  match l with
  | [] => ret tt
  | x :: rest => bind (body x) (fun _ => for_of rest body)
  end.

(** ** Sales.tsx: the cart builder and the checkout *)

Module Sales.
Import Store.
Local Open Scope handler_scope.

(** [interface CartItem extends Product { quantity: number }]: the copied
    product fields ([{ ...product, quantity: 1 }]) and the quantity. *)
Record CartItem := mkCartItem {
  product : Product;
  quantity : Z
}.

(** [{ ...item, quantity: q }] *)
Definition with_quantity (item : CartItem) (q : Z) : CartItem :=
  {| product := product item; quantity := q |}.

Definition addToCart (p : Product) (current : list CartItem)
  : list CartItem :=
  match js_find (fun item => String.eqb (id (product item)) (id p)) current
  with
  | Some existing =>
      if quantity existing >=? stock_quantity p then current
      else map (fun item =>
                  if String.eqb (id (product item)) (id p)
                  then with_quantity item (quantity item + 1)
                  else item) current
  | None => current ++ [ {| product := p; quantity := 1 |} ]
  end.

Definition removeFromCart (productId : string) (current : list CartItem)
  : list CartItem :=
  filter (fun item => negb (String.eqb (id (product item)) productId))
         current.

(** The function [updateQuantity] maps over the cart. *)
Definition updateLine (productId : string) (delta : Z) (item : CartItem)
  : CartItem :=
  if String.eqb (id (product item)) productId then
    let newQuantity := quantity item + delta in
    if newQuantity <? 1 then item
    else if newQuantity >? stock_quantity (product item) then item
    else with_quantity item newQuantity
  else item.

Definition updateQuantity (productId : string) (delta : Z)
           (current : list CartItem) : list CartItem :=
  map (updateLine productId delta) current.

(** [cart.reduce((sum, item) => sum + (item.price * item.quantity), 0)] *)
Definition total (cart : list CartItem) : Q :=
  fold_left (fun sum item =>
               (sum + price (product item) * inject_Z (quantity item))%Q)
            cart 0%Q.

(** A quantity inside the closed range [1, stock_quantity] of its line. *)
Definition in_range (item : CartItem) : Prop :=
  1 <= quantity item <= stock_quantity (product item).

Inductive PaymentType := cash | installment.

(** The state of the page that [handleCheckout] reads and resets. *)
Record State := mkState {
  clients : list Client;
  cart : list CartItem;
  selectedClient : string;
  paymentType : PaymentType;
  paymentMethod : string;
  installments : nat;
  amountPaid : Q
}.

(** What the outside answers during one checkout: the identifier the store
    gives the sale, the day the clock shows, and the requests that fail.
    The errors of the stock requests, of the register lookup and of the
    ledger insert are never read by the source: only whether they fail
    matters. *)
Record Env := mkEnv {
  new_sale_id : string;
  today : Z;
  sale_error : option string;
  items_error : option string;
  installments_error : option string;
  stock_select_fails : string -> bool;
  stock_update_fails : string -> bool;
  receipt_error : option string;
  register_select_fails : bool;
  transaction_insert_fails : bool;
  transaction_time : Z
}.

Definition is_cash (t : PaymentType) : bool :=
  match t with cash => true | installment => false end.

(** [Array.from({ length: installments }).map((_, index) => ...)] *)
Definition installmentData (saleId : string) (total : Q) (n : nat) (now : Z)
  : list Installment :=
  let installmentAmount := (total / inject_Z (Z.of_nat n))%Q in
  map (fun index : nat =>
         {| inst_sale_id := saleId;
            installment_number := Z.of_nat index + 1;
            due_date := now + 30 * (Z.of_nat index + 1);
            inst_amount := installmentAmount;
            inst_status := pending |})
      (seq 0 n).

Definition saleItems (saleId : string) (cart : list CartItem)
  : list SaleItem :=
  map (fun item =>
         {| item_sale_id := saleId;
            item_product_id := id (product item);
            item_quantity := quantity item;
            unit_price := price (product item) |}) cart.

(** [clients.find(c => c.id === selectedClient)?.name || 'Cliente'] *)
Definition clientName (s : State) : string :=
  match js_find (fun c => String.eqb (client_id c) (selectedClient s))
                (clients s) with
  | Some c => if String.eqb (client_name c) "" then "Cliente"
              else client_name c
  | None => "Cliente"
  end.

(** The amount of the ledger entry of step 6. *)
Definition ledgerAmount (s : State) : Q :=
  let total := total (cart s) in
  if String.eqb (paymentMethod s) "money"
  then (if Qltb total (amountPaid s) then total else amountPaid s)
  else total.

Definition select_response {A : Type} (fails : bool) (row : option A)
  : Response A :=
  if fails then Error "request failed"
  else match row with
       | Some r => Data r
       | None => Error "JSON object requested, multiple (or no) rows returned"
       end.

(** Step 4, one cart line. *)
Definition updateStock (env : Env) (item : CartItem) : M unit :=
  let pid := id (product item) in
  currentProduct <-
    read (fun st => select_response (stock_select_fails env pid)
                                    (select_stock pid st)) ;;
  match currentProduct with
  | Data stock =>
      write (if stock_update_fails env pid then Some "request failed"
             else None)
            (update_stock pid (stock - quantity item)) ;;;
      ret tt
  | Error _ => ret tt
  end.

(** The [try] block of [handleCheckout]. *)
Definition checkoutBody (user : string) (s : State) (env : Env) : M unit :=
  let total := total (cart s) in
  (* 1. Create Sale *)
  let sale :=
    {| sale_id := new_sale_id env;
       sale_client_id := selectedClient s;
       sale_user_id := user;
       total_amount := total;
       payment_method :=
         match paymentType s with
         | installment =>
             ("credit_card_" ++ string_of_nat (installments s) ++ "x")%string
         | cash => paymentMethod s
         end |} in
  saleResponse <- write (sale_error env) (insert_sale sale) ;;
  match saleResponse with
  | Error saleError => throw saleError
  | Data _ =>
  (* 2. Create Sale Items *)
  itemsResponse <-
    write (items_error env)
          (insert_sale_items (saleItems (sale_id sale) (cart s))) ;;
  match itemsResponse with
  | Error itemsError => throw itemsError
  | Data _ =>
  (* 3. Create Installments if applicable *)
  match paymentType s with
  | installment =>
      installmentResponse <-
        write (installments_error env)
              (insert_installments
                 (installmentData (sale_id sale) total (installments s)
                                  (today env))) ;;
      match installmentResponse with
      | Error installmentError => throw installmentError
      | Data _ => ret tt
      end
  | cash => ret tt
  end ;;;
  (* 4. Update Stock *)
  for_of (cart s) (updateStock env) ;;;
  (* 5. Generate Receipt *)
  match receipt_error env with
  | Some e => throw e
  | None => ret tt
  end ;;;
  (* 6. Register in Cash Flow if it's a cash sale *)
  match paymentType s with
  | cash =>
      register <-
        read (fun st => select_response (register_select_fails env)
                                        (select_open_register user st)) ;;
      match register with
      | Data register =>
          write (if transaction_insert_fails env
                 then Some "request failed" else None)
                (insert_transaction
                   {| tx_register_id := register_id register;
                      tx_sale_id := Some (sale_id sale);
                      tx_installment_id := None;
                      description :=
                        "Venda #" ++ substring 0 8 (sale_id sale)
                                  ++ " - " ++ clientName s;
                      amount := ledgerAmount s;
                      type := Store.sale;
                      created_at := transaction_time env |}) ;;;
          ret tt
      | Error _ => ret tt
      end
  | installment => ret tt
  end
  end
  end.

(** The page after the reset that follows a successful checkout. *)
Definition reset (s : State) : State :=
  {| clients := clients s;
     cart := [];
     selectedClient := "";
     paymentType := cash;
     paymentMethod := paymentMethod s;
     installments := 2;
     amountPaid := 0%Q |}.

Record Outcome := mkOutcome {
  page : State;
  store : Store.t;
  alert : string
}.

Definition handleCheckout (user : string) (s : State) (env : Env)
           (st : Store.t) : Outcome :=
  if String.eqb (selectedClient s) "" then
    {| page := s; store := st; alert := "Selecione um cliente" |}
  else if (List.length (cart s) =? 0)%nat then
    {| page := s; store := st; alert := "Carrinho vazio" |}
  else if is_cash (paymentType s)
          && String.eqb (paymentMethod s) "money"
          && Qltb (amountPaid s) (total (cart s)) then
    {| page := s; store := st; alert := "Valor pago insuficiente" |}
  else
    match checkoutBody user s env st with
    | (st', Ok _) =>
        {| page := reset s; store := st';
           alert := "Venda realizada com sucesso!" |}
    | (st', Throw message) =>
        {| page := s; store := st';
           alert := ("Erro ao processar venda: " ++ message)%string |}
    end.

(** *** The vocabulary of the statements about the cart *)

(** What [updateQuantity] does to one line: it leaves the line as it is, or
    it is the line asked for and its new quantity, the old one plus [delta],
    lies in the range of the line. *)
Definition line_step (productId : string) (delta : Z)
           (item item' : CartItem) : Prop :=
  item' = item \/
  (id (product item) = productId /\
   product item' = product item /\
   quantity item' = quantity item + delta /\
   in_range item').

Definition not_in_cart (p : Product) (current : list CartItem) : Prop :=
  forall item, In item current -> id (product item) <> id p.

(** The row of step 1. *)
Definition the_sale (user : string) (s : State) (env : Env) : Sale :=
  {| sale_id := new_sale_id env;
     sale_client_id := selectedClient s;
     sale_user_id := user;
     total_amount := total (cart s);
     payment_method :=
       match paymentType s with
       | installment =>
           ("credit_card_" ++ string_of_nat (installments s) ++ "x")%string
       | cash => paymentMethod s
       end |}.

(** The row of step 6, for the register found. *)
Definition the_entry (s : State) (env : Env) (r : CashRegister)
  : Transaction :=
  {| tx_register_id := register_id r;
     tx_sale_id := Some (new_sale_id env);
     tx_installment_id := None;
     description := "Venda #" ++ substring 0 8 (new_sale_id env)
                              ++ " - " ++ clientName s;
     amount := ledgerAmount s;
     type := Store.sale;
     created_at := transaction_time env |}.

(** The store after steps 1, 2, 3, 4 and 6, when the steps before went
    through. *)
Definition after_sale (user : string) (s : State) (env : Env) (st : Store.t)
  : Store.t :=
  insert_sale (the_sale user s env) st.

Definition after_items (user : string) (s : State) (env : Env) (st : Store.t)
  : Store.t :=
  insert_sale_items (saleItems (new_sale_id env) (cart s))
                    (after_sale user s env st).

Definition after_installments (user : string) (s : State) (env : Env)
           (st : Store.t) : Store.t :=
  match paymentType s with
  | installment =>
      insert_installments
        (installmentData (new_sale_id env) (total (cart s)) (installments s)
                         (today env))
        (after_items user s env st)
  | cash => after_items user s env st
  end.

Definition after_stock (user : string) (s : State) (env : Env) (st : Store.t)
  : Store.t :=
  fst (for_of (cart s) (updateStock env) (after_installments user s env st)).

Definition after_ledger (user : string) (s : State) (env : Env)
           (st : Store.t) : Store.t :=
  let st4 := after_stock user s env st in
  match paymentType s with
  | cash =>
      if register_select_fails env then st4
      else match select_open_register user st4 with
           | Some r =>
               if transaction_insert_fails env then st4
               else insert_transaction (the_entry s env r) st4
           | None => st4
           end
  | installment => st4
  end.

(** *** The vocabulary of the statements about the checkout *)

(** The third check at the head of [handleCheckout], and a page that
    passes the three of them. *)
Definition insufficient (s : State) : Prop :=
  paymentType s = cash /\ paymentMethod s = "money" /\
  (amountPaid s < total (cart s))%Q.

Definition valid (s : State) : Prop :=
  selectedClient s <> "" /\ cart s <> [] /\ ~ insufficient s.

(** The rows step 3 adds. *)
Definition new_installments (s : State) (env : Env)
  : list Store.Installment :=
  match paymentType s with
  | installment =>
      installmentData (new_sale_id env) (total (cart s)) (installments s)
                      (today env)
  | cash => []
  end.

Definition decrement_all (cart : list CartItem) (ps : list Product)
  : list Product :=
  fold_left (fun ps item => decrement (id (product item)) (quantity item) ps)
            cart ps.

End Sales.

(** ** StockModal.tsx: the manual stock adjustment *)

Module StockModal.
Import Store.
Local Open Scope handler_scope.

Inductive Operation := add | remove.

(** [handleSubmit] for the [product] the modal was opened with; the result
    is the store and the message of [setError], if any. *)
Definition handleSubmit (product : Product) (quantity : Z)
           (type : Operation) (update_error : option string)
           (st : Store.t) : Store.t * option string :=
  let body : M unit :=
    let newQuantity :=
      match type with
      | add => stock_quantity product + quantity
      | remove => stock_quantity product - quantity
      end in
    if newQuantity <? 0 then throw "O estoque não pode ficar negativo"
    else
      response <- write update_error
                        (update_stock (id product) newQuantity) ;;
      match response with
      | Error error => throw error
      | Data _ => ret tt
      end in
  match body st with
  | (st', Ok _) => (st', None)
  | (st', Throw message) => (st', Some message)
  end.

End StockModal.

(** ** Stock.tsx: registering a purchase *)

Module Stock.
Import Store.
Local Open Scope handler_scope.

Record NewPurchase := mkNewPurchase {
  product_id : string;
  quantity : Z;
  has_file : bool
}.

Record Env := mkEnv {
  upload_error : option string;
  insert_error : option string;
  update_error : option string
}.

(** [handleSubmit] of [PurchasesView]; [products] is the list the page
    was given, not a fresh read.  (The alert of the [catch] is written
    here without the quotation marks around the bucket's name.) *)
Definition handleSubmit (products : list Product) (newPurchase : NewPurchase)
           (env : Env) (st : Store.t) : Store.t * string :=
  let body : M unit :=
    (if has_file newPurchase then
       match upload_error env with
       | Some uploadError => throw uploadError
       | None => ret tt
       end
     else ret tt) ;;;
    insertResponse <-
      write (insert_error env)
            (insert_purchase
               {| purchase_product_id := product_id newPurchase;
                  purchase_quantity := quantity newPurchase |}) ;;
    match insertResponse with
    | Error insertError => throw insertError
    | Data _ =>
        match js_find (fun p => String.eqb (id p) (product_id newPurchase))
                      products with
        | Some product =>
            updateResponse <-
              write (update_error env)
                    (update_stock (product_id newPurchase)
                       (stock_quantity product + quantity newPurchase)) ;;
            match updateResponse with
            | Error updateError => throw updateError
            | Data _ => ret tt
            end
        | None => ret tt
        end
    end in
  match body st with
  | (st', Ok _) => (st', "Compra registrada com sucesso!")
  | (st', Throw _) =>
      (st', "Erro ao registrar compra. Verifique se o bucket purchase-docs existe no Supabase.")
  end.

End Stock.

(** ** CashFlow.tsx: the cash register ledger *)

Module CashFlow.
Import Store.
Local Open Scope handler_scope.

Record State := mkState {
  register : option CashRegister;
  transactions : list Transaction
}.

(** [.order('created_at', { ascending: false })] *)
Fixpoint insert_desc (t : Transaction) (l : list Transaction)
  : list Transaction :=
  match l with
  | [] => [t]
  | u :: rest =>
      if created_at t <? created_at u then u :: insert_desc t rest
      else t :: u :: rest
  end.

Definition order_desc (l : list Transaction) : list Transaction :=
  fold_right insert_desc [] l.

(** The rows the request of [fetchTransactions] answers with when the store
    serves it:
    [.eq('register_id', registerId).order('created_at', { ascending: false })] *)
Definition select_transactions (registerId : string) (st : Store.t)
  : list Transaction :=
  order_desc (filter (fun t => String.eqb (tx_register_id t) registerId)
                     (cash_transactions st)).

(** [fetchTransactions]: the [transactions] of the page after the call.
    [if (error) console.error(...) else setTransactions(data || [])]: when
    the request fails the page keeps the rows it showed. *)
Definition fetchTransactions (error : option string) (registerId : string)
           (transactions : list Transaction) (st : Store.t)
  : list Transaction :=
  match error with
  | Some _ => transactions
  | None => select_transactions registerId st
  end.

Definition calculateBalance (transactions : list Transaction) : Q :=
  fold_left (fun acc curr =>
               match type curr with
               | withdrawal => (acc - amount curr)%Q
               | _ => (acc + amount curr)%Q
               end)
            transactions 0%Q.

(** The spec's wording of the balance: each transaction counts for
    [- amount] when it is a withdrawal and for [+ amount] otherwise. *)
Definition signed_amount (t : Transaction) : Q :=
  match type t with
  | withdrawal => (- amount t)%Q
  | _ => amount t
  end.

Fixpoint signed_sum (l : list Transaction) : Q :=
  match l with
  | [] => 0%Q
  | t :: rest => (signed_amount t + signed_sum rest)%Q
  end.

Record OpenEnv := mkOpenEnv {
  new_register_id : string;
  open_insert_error : option string;
  opening_insert_fails : bool;
  fetch_error : option string;
  open_time : Z
}.

Record Outcome := mkOutcome {
  page : State;
  store : Store.t;
  alert : option string
}.

Definition handleOpenRegister (user : option string) (initialBalance : Q)
           (s : State) (env : OpenEnv) (st : Store.t) : Outcome :=
  match user with
  | None => {| page := s; store := st; alert := None |}
  | Some user =>
      let data :=
        {| register_id := new_register_id env;
           register_user_id := user;
           opened_at := open_time env;
           closed_at := None;
           initial_balance := initialBalance;
           final_balance := None;
           status := open |} in
      let body : M unit :=
        response <- write (open_insert_error env) (insert_register data) ;;
        match response with
        | Error error => throw error
        | Data _ =>
            (* Record initial balance transaction *)
            write (if opening_insert_fails env then Some "request failed"
                   else None)
                  (insert_transaction
                     {| tx_register_id := register_id data;
                        tx_sale_id := None;
                        tx_installment_id := None;
                        description := "Abertura de Caixa";
                        amount := initialBalance;
                        type := opening;
                        created_at := open_time env |}) ;;;
            ret tt
        end in
      match body st with
      | (st', Ok _) =>
          {| page := {| register := Some data;
                        transactions :=
                          fetchTransactions (fetch_error env)
                                            (register_id data)
                                            (transactions s) st' |};
             store := st'; alert := None |}
      | (st', Throw _) =>
          {| page := s; store := st'; alert := Some "Erro ao abrir caixa" |}
      end
  end.

Record CloseEnv := mkCloseEnv {
  confirm : bool;
  close_update_error : option string;
  closing_insert_fails : bool;
  close_time : Z
}.

Definition handleCloseRegister (s : State) (env : CloseEnv) (st : Store.t)
  : Outcome :=
  match register s with
  | None => {| page := s; store := st; alert := None |}
  | Some register =>
      if negb (confirm env) then {| page := s; store := st; alert := None |}
      else
        let body : M unit :=
          response <-
            write (close_update_error env)
                  (close_register (register_id register) (close_time env)
                                  (calculateBalance (transactions s))) ;;
          match response with
          | Error error => throw error
          | Data _ =>
              (* Record closing transaction *)
              write (if closing_insert_fails env then Some "request failed"
                     else None)
                    (insert_transaction
                       {| tx_register_id := register_id register;
                          tx_sale_id := None;
                          tx_installment_id := None;
                          description := "Fechamento de Caixa";
                          amount := calculateBalance (transactions s);
                          type := closing;
                          created_at := close_time env |}) ;;;
              ret tt
          end in
        match body st with
        | (st', Ok _) =>
            {| page := {| register := None; transactions := [] |};
               store := st'; alert := None |}
        | (st', Throw _) =>
            {| page := s; store := st';
               alert := Some "Erro ao fechar caixa" |}
        end
  end.

Definition closing_row (r : CashRegister) (b : Q) (time : Z) : Transaction :=
  {| tx_register_id := register_id r; tx_sale_id := None;
     tx_installment_id := None; description := "Fechamento de Caixa";
     amount := b; type := closing; created_at := time |}.

End CashFlow.

(** ** Installments.tsx: the installment tracker *)

Module Installments.
Import Store.

(** A row of [fetchInstallments]: the installment joined with the client
    of its sale ([sale.client.id], [sale.client.name]). *)
Record Installment := mkInstallment {
  id : string;
  sale_id : string;
  installment_number : Z;
  due_date : Z;
  amount : Q;
  status : InstallmentStatus;
  client_id : string;
  client_name : string
}.

Record ClientGroup := mkClientGroup {
  clientId : string;
  clientName : string;
  installments : list Installment;
  totalPending : Q;
  totalOverdue : Q
}.

Inductive StatusFilter := all_statuses | only (s : InstallmentStatus).
Inductive ViewMode := all_dates | today.

Definition status_eqb (a b : InstallmentStatus) : bool :=
  match a, b with
  | pending, pending | paid, paid | overdue, overdue => true
  | _, _ => false
  end.

(** [String.prototype.includes] *)
Fixpoint includes (s sub : string) : bool :=
  if prefix sub s then true
  else match s with
       | EmptyString => false
       | String _ rest => includes rest sub
       end.

(** The own properties of the object [groups]: its keys in the order of
    their first insertion, which is the order [Object.values] lists them in
    (keys that read as array indices apart: those come first; the sort
    below makes the difference invisible unless two names compare
    equal). *)
Definition Groups := list (string * ClientGroup).

Fixpoint lookup (key : string) (groups : Groups) : option ClientGroup :=
  match groups with
  | [] => None
  | (k, g) :: rest => if String.eqb k key then Some g else lookup key rest
  end.

(** The names every object answers to without anything stored under
    them, the properties of [Object.prototype]. *)
Definition prototype_keys : list string :=
  [ "constructor"; "__proto__"; "hasOwnProperty"; "isPrototypeOf";
    "propertyIsEnumerable"; "toLocaleString"; "toString"; "valueOf";
    "__defineGetter__"; "__defineSetter__"; "__lookupGetter__";
    "__lookupSetter__" ].

Definition inherited (key : string) : bool :=
  existsb (String.eqb key) prototype_keys.

(** [groups[key]]: a group stored under the key, a property of the
    prototype (truthy, and no group), or [undefined]. *)
Inductive Slot :=
| Stored (g : ClientGroup)
| Inherited
| Undefined.

Definition get (key : string) (groups : Groups) : Slot :=
  match lookup key groups with
  | Some g => Stored g
  | None => if inherited key then Inherited else Undefined
  end.

(** [groups[key] = f(groups[key])] for a key that is present. *)
Fixpoint update (key : string) (f : ClientGroup -> ClientGroup)
         (groups : Groups) : Groups :=
  match groups with
  | [] => []
  | (k, g) :: rest =>
      if String.eqb k key then (k, f g) :: rest
      else (k, g) :: update key f rest
  end.

Definition push (inst : Installment) (g : ClientGroup) : ClientGroup :=
  {| clientId := clientId g; clientName := clientName g;
     installments := installments g ++ [inst];
     totalPending := totalPending g; totalOverdue := totalOverdue g |}.

Definition addPending (a : Q) (g : ClientGroup) : ClientGroup :=
  {| clientId := clientId g; clientName := clientName g;
     installments := installments g;
     totalPending := (totalPending g + a)%Q;
     totalOverdue := totalOverdue g |}.

Definition addOverdue (a : Q) (g : ClientGroup) : ClientGroup :=
  {| clientId := clientId g; clientName := clientName g;
     installments := installments g;
     totalPending := totalPending g;
     totalOverdue := (totalOverdue g + a)%Q |}.

(** The sums a group is meant to carry, over its own installments. *)
Definition sumOf (s : InstallmentStatus) (l : list Installment) : Q :=
  fold_left (fun acc inst =>
               if status_eqb (status inst) s then (acc + amount inst)%Q
               else acc) l 0%Q.

(** What the callback does to the group of the installment: the push and
    the addition to one of the sums. *)
Definition record (inst : Installment) (g : ClientGroup) : ClientGroup :=
  match status inst with
  | pending => addPending (amount inst) (push inst g)
  | overdue => addOverdue (amount inst) (push inst g)
  | paid => push inst g
  end.

Section Grouping.
(** [String.prototype.toLowerCase] and [String.prototype.localeCompare]
    follow Unicode and the locale of the browser. *)
Variable toLowerCase : string -> string.
Variable localeCompare : string -> string -> Z.

Variable searchTerm : string.
Variable statusFilter : StatusFilter.
Variable viewMode : ViewMode.
(** The day [new Date()] shows. *)
Variable now : Z.

(** The filter logic of the [forEach] callback. *)
Definition matches (inst : Installment) : bool :=
  let matchesSearch :=
    includes (toLowerCase (client_name inst)) (toLowerCase searchTerm) in
  let matchesStatus :=
    match statusFilter with
    | all_statuses => true
    | only s => status_eqb (status inst) s
    end in
  let matchesDate :=
    match viewMode with
    | today => due_date inst =? now
    | all_dates => true
    end in
  matchesSearch && matchesStatus && matchesDate.

(** The body of the [forEach] callback; [None] is the [TypeError] of
    [groups[clientId].installments.push] when [groups[clientId]] is not a
    group. *)
Definition addInstallment (groups : Groups) (inst : Installment)
  : option Groups :=
  if matches inst then
    let clientId := client_name inst in
    let groups1 :=
      match get clientId groups with
      | Undefined =>
          (groups ++ [ (clientId,
                        {| clientId := clientId;
                           clientName := client_name inst;
                           installments := [];
                           totalPending := 0%Q;
                           totalOverdue := 0%Q |}) ])%list
      | _ => groups
      end in
    match get clientId groups1 with
    | Stored _ =>
        let groups2 := update clientId (push inst) groups1 in
        Some match status inst with
             | pending => update clientId (addPending (amount inst)) groups2
             | overdue => update clientId (addOverdue (amount inst)) groups2
             | paid => groups2
             end
    | _ => None
    end
  else Some groups.

(** [installments.forEach(...)], which an exception leaves. *)
Definition groupsOf (installments : list Installment) : option Groups :=
  fold_left (fun acc inst =>
               match acc with
               | Some groups => addInstallment groups inst
               | None => None
               end)
            installments (Some []).

(** [Array.prototype.sort] with the comparator
    [(a, b) => a.clientName.localeCompare(b.clientName)]; the sort is
    stable. *)
Fixpoint insert_sorted (g : ClientGroup) (l : list ClientGroup)
  : list ClientGroup :=
  match l with
  | [] => [g]
  | h :: rest =>
      if 0 <? localeCompare (clientName g) (clientName h)
      then h :: insert_sorted g rest
      else g :: h :: rest
  end.

Definition sort_groups (l : list ClientGroup) : list ClientGroup :=
  fold_right insert_sorted [] l.

(** The value [groupInstallments] passes to [setClientGroups], when it
    gets there. *)
Definition groupInstallments (installments : list Installment)
  : option (list ClientGroup) :=
  option_map (fun groups => sort_groups (map snd groups))
             (groupsOf installments).

(** The installments that pass the filters and carry the client name [k]. *)
Definition shown_for (k : string) (l : list Installment)
  : list Installment :=
  filter (fun i => matches i && String.eqb (client_name i) k) l.

(** A group under the key [k] that is right for the installments [done]. *)
Definition group_ok (done : list Installment) (k : string) (g : ClientGroup)
  : Prop :=
  clientId g = k /\ clientName g = k /\
  installments g = shown_for k done /\
  totalPending g = sumOf pending (installments g) /\
  totalOverdue g = sumOf overdue (installments g).

Definition groups_ok (done : list Installment) (groups : Groups) : Prop :=
  NoDup (map fst groups) /\
  (forall k g, lookup k groups = Some g -> group_ok done k g) /\
  (forall i, In i done -> matches i = true ->
             lookup (client_name i) groups <> None).

(** No installment shown belongs to a client called like a property of
    [Object.prototype]. *)
Definition plain_names (l : list Installment) : Prop :=
  forall i, In i l -> matches i = true -> inherited (client_name i) = false.

End Grouping.

End Installments.

(** ** Concrete stores, pages and answers of the outside *)

Module Scenario.
Import Store.

(** The outside when nothing fails. *)
Definition quiet_env : Sales.Env :=
  {| Sales.new_sale_id := "3f2a9c1e-0001"; Sales.today := 100;
     Sales.sale_error := None; Sales.items_error := None;
     Sales.installments_error := None;
     Sales.stock_select_fails := fun _ => false;
     Sales.stock_update_fails := fun _ => false;
     Sales.receipt_error := None;
     Sales.register_select_fails := false;
     Sales.transaction_insert_fails := false;
     Sales.transaction_time := 100 |}.

Definition with_items_error (e : string) (env : Sales.Env) : Sales.Env :=
  {| Sales.new_sale_id := Sales.new_sale_id env;
     Sales.today := Sales.today env;
     Sales.sale_error := Sales.sale_error env;
     Sales.items_error := Some e;
     Sales.installments_error := Sales.installments_error env;
     Sales.stock_select_fails := Sales.stock_select_fails env;
     Sales.stock_update_fails := Sales.stock_update_fails env;
     Sales.receipt_error := Sales.receipt_error env;
     Sales.register_select_fails := Sales.register_select_fails env;
     Sales.transaction_insert_fails := Sales.transaction_insert_fails env;
     Sales.transaction_time := Sales.transaction_time env |}.

Definition with_installments_error (e : string) (env : Sales.Env)
  : Sales.Env :=
  {| Sales.new_sale_id := Sales.new_sale_id env;
     Sales.today := Sales.today env;
     Sales.sale_error := Sales.sale_error env;
     Sales.items_error := Sales.items_error env;
     Sales.installments_error := Some e;
     Sales.stock_select_fails := Sales.stock_select_fails env;
     Sales.stock_update_fails := Sales.stock_update_fails env;
     Sales.receipt_error := Sales.receipt_error env;
     Sales.register_select_fails := Sales.register_select_fails env;
     Sales.transaction_insert_fails := Sales.transaction_insert_fails env;
     Sales.transaction_time := Sales.transaction_time env |}.

Definition with_receipt_error (e : string) (env : Sales.Env) : Sales.Env :=
  {| Sales.new_sale_id := Sales.new_sale_id env;
     Sales.today := Sales.today env;
     Sales.sale_error := Sales.sale_error env;
     Sales.items_error := Sales.items_error env;
     Sales.installments_error := Sales.installments_error env;
     Sales.stock_select_fails := Sales.stock_select_fails env;
     Sales.stock_update_fails := Sales.stock_update_fails env;
     Sales.receipt_error := Some e;
     Sales.register_select_fails := Sales.register_select_fails env;
     Sales.transaction_insert_fails := Sales.transaction_insert_fails env;
     Sales.transaction_time := Sales.transaction_time env |}.

Definition with_stock_updates_failing (env : Sales.Env) : Sales.Env :=
  {| Sales.new_sale_id := Sales.new_sale_id env;
     Sales.today := Sales.today env;
     Sales.sale_error := Sales.sale_error env;
     Sales.items_error := Sales.items_error env;
     Sales.installments_error := Sales.installments_error env;
     Sales.stock_select_fails := Sales.stock_select_fails env;
     Sales.stock_update_fails := fun _ => true;
     Sales.receipt_error := Sales.receipt_error env;
     Sales.register_select_fails := Sales.register_select_fails env;
     Sales.transaction_insert_fails := Sales.transaction_insert_fails env;
     Sales.transaction_time := Sales.transaction_time env |}.

(** The same failure of the store at two different steps, a failure of
    the receipt, and a store that refuses every stock update. *)
Definition items_fail_env : Sales.Env :=
  with_items_error "Failed to fetch" quiet_env.

Definition installments_fail_env : Sales.Env :=
  with_installments_error "Failed to fetch" quiet_env.

Definition receipt_fails_env : Sales.Env :=
  with_receipt_error "Failed to save" quiet_env.

Definition stock_fails_env : Sales.Env :=
  with_stock_updates_failing quiet_env.

Definition caderno (stock : Z) : Product :=
  mkProduct "p1" "Caderno" "0001" (15 # 1) stock.

Definition one_register : list CashRegister :=
  [mkCashRegister "reg-1" "op" 1 None (100 # 1) None open].

Definition small_store : Store.t :=
  mkStore [caderno 4] [] [] [] one_register [] [].

(** 10.00 tendered in cash against a cart of 15.00. *)
Definition underpaid_page : Sales.State :=
  {| Sales.clients := [mkClient "c1" "Ana"];
     Sales.cart := [ {| Sales.product := caderno 4; Sales.quantity := 1 |} ];
     Sales.selectedClient := "c1";
     Sales.paymentType := Sales.cash;
     Sales.paymentMethod := "money";
     Sales.installments := 2;
     Sales.amountPaid := 10 # 1 |}.

(** 20.00 tendered in cash against the same cart. *)
Definition overpaid_page : Sales.State :=
  {| Sales.clients := [mkClient "c1" "Ana"];
     Sales.cart := [ {| Sales.product := caderno 4; Sales.quantity := 1 |} ];
     Sales.selectedClient := "c1";
     Sales.paymentType := Sales.cash;
     Sales.paymentMethod := "money";
     Sales.installments := 2;
     Sales.amountPaid := 20 # 1 |}.

(** A cart of 2 x 10.00 and 1 x 5.00 paid in 3 installments. *)
Definition installment_page : Sales.State :=
  {| Sales.clients := [mkClient "c1" "Ana"];
     Sales.cart :=
       [ {| Sales.product := mkProduct "pA" "Caderno" "0001" (10 # 1) 8;
            Sales.quantity := 2 |};
         {| Sales.product := mkProduct "pB" "Caneta" "0002" (5 # 1) 3;
            Sales.quantity := 1 |} ];
     Sales.selectedClient := "c1";
     Sales.paymentType := Sales.installment;
     Sales.paymentMethod := "pix";
     Sales.installments := 3;
     Sales.amountPaid := 0 |}.

Definition two_product_store : Store.t :=
  mkStore [mkProduct "pA" "Caderno" "0001" (10 # 1) 8;
           mkProduct "pB" "Caneta" "0002" (5 # 1) 3] [] [] []
          one_register [] [].

(** The sales page that filled its cart from a stock of five, and the
    store after another session sold three of them. *)
Definition stale_page : Sales.State :=
  {| Sales.clients := [mkClient "c1" "Ana"];
     Sales.cart := [ {| Sales.product := caderno 5; Sales.quantity := 5 |} ];
     Sales.selectedClient := "c1";
     Sales.paymentType := Sales.cash;
     Sales.paymentMethod := "pix";
     Sales.installments := 2;
     Sales.amountPaid := 0 |}.

Definition sold_meanwhile_store : Store.t :=
  mkStore [caderno 2] [] [] [] one_register [] [].

(** The ledger scenario: the operator opens a register with 100.00, sells
    for 50.00 paid by PIX, and a withdrawal of 20.00 is recorded in the
    register. *)
Definition scenario_opened : CashFlow.Outcome :=
  CashFlow.handleOpenRegister (Some "op") (100 # 1)
    {| CashFlow.register := None; CashFlow.transactions := [] |}
    {| CashFlow.new_register_id := "reg-1";
       CashFlow.open_insert_error := None;
       CashFlow.opening_insert_fails := false;
       CashFlow.fetch_error := None;
       CashFlow.open_time := 1 |}
    (mkStore [mkProduct "p1" "Caderno" "0001" (25 # 1) 10] [] [] [] [] [] []).

Definition scenario_sold : Sales.Outcome :=
  Sales.handleCheckout "op"
    {| Sales.clients := [mkClient "c1" "Ana"];
       Sales.cart :=
         [ {| Sales.product := mkProduct "p1" "Caderno" "0001" (25 # 1) 10;
              Sales.quantity := 2 |} ];
       Sales.selectedClient := "c1";
       Sales.paymentType := Sales.cash;
       Sales.paymentMethod := "pix";
       Sales.installments := 2;
       Sales.amountPaid := 0 |}
    quiet_env
    (CashFlow.store scenario_opened).

Definition scenario_store : Store.t :=
  insert_transaction
    {| tx_register_id := "reg-1"; tx_sale_id := None;
       tx_installment_id := None; description := "Sangria";
       amount := 20 # 1; type := withdrawal; created_at := 200 |}
    (Sales.store scenario_sold).

(** A register opened with 100.00 that saw a sale of 50.00, as the ledger
    page holds it, and the operator confirming the close. *)
Definition open_register : CashRegister :=
  mkCashRegister "reg-1" "op" 1 None (100 # 1) None open.

Definition ledger_rows : list Transaction :=
  [ mkTransaction "reg-1" None None "Venda" (50 # 1) sale 2;
    mkTransaction "reg-1" None None "Abertura de Caixa" (100 # 1) opening 1 ].

Definition ledger_page : CashFlow.State :=
  {| CashFlow.register := Some open_register;
     CashFlow.transactions := ledger_rows |}.

Definition ledger_store : Store.t :=
  mkStore [] [] [] [] [open_register] ledger_rows [].

Definition confirmed_close : CashFlow.CloseEnv :=
  {| CashFlow.confirm := true; CashFlow.close_update_error := None;
     CashFlow.closing_insert_fails := false; CashFlow.close_time := 9 |}.

(** Two clients called Ana, and one called Bia, with their installments. *)
Definition ana1_pending : Installments.Installment :=
  Installments.mkInstallment "i1" "s1" 1 130 (10 # 1) pending "c1" "Ana".

Definition bia_pending : Installments.Installment :=
  Installments.mkInstallment "i2" "s2" 1 131 (40 # 1) pending "c3" "Bia".

Definition ana2_pending : Installments.Installment :=
  Installments.mkInstallment "i3" "s3" 1 132 (7 # 1) pending "c2" "Ana".

Definition ana2_overdue : Installments.Installment :=
  Installments.mkInstallment "i4" "s3" 2 99 (5 # 1) overdue "c2" "Ana".

Definition fetched : list Installments.Installment :=
  [ana2_overdue; ana1_pending; bia_pending; ana2_pending].

(** A comparison of names by code units, standing for [localeCompare]. *)
Definition byte_compare (a b : string) : Z :=
  match String.compare a b with
  | Lt => -1
  | Eq => 0
  | Gt => 1
  end.

End Scenario.

(** ** Sales.tsx: what the page derives from the cart *)

Module SalesView.
Import Store Sales.

(** [const change = paymentMethod === 'money' && paymentType === 'cash'
      ? Math.max(0, amountPaid - total) : 0] *)
Definition change (s : State) : Q :=
  if String.eqb (paymentMethod s) "money" && is_cash (paymentType s)
  then Qmax 0 (amountPaid s - total (cart s))
  else 0%Q.

(** The sum of [price * quantity] over the lines, line by line. *)
Fixpoint line_sum (cart : list CartItem) : Q :=
  match cart with
  | [] => 0%Q
  | item :: rest =>
      (price (product item) * inject_Z (quantity item) + line_sum rest)%Q
  end.

(** The carts the page can hold: it starts empty, the product grid calls
    [addToCart] with a product of the list the page fetched, and the cart
    panel calls [updateQuantity] and [removeFromCart]. *)
Inductive reachable (catalog : list Product) : list CartItem -> Prop :=
| reach_empty : reachable catalog []
| reach_add (p : Product) (c : list CartItem) :
    In p catalog -> reachable catalog c -> reachable catalog (addToCart p c)
| reach_update (productId : string) (delta : Z) (c : list CartItem) :
    reachable catalog c ->
    reachable catalog (updateQuantity productId delta c)
| reach_remove (productId : string) (c : list CartItem) :
    reachable catalog c -> reachable catalog (removeFromCart productId c).

(** One line per product, every line a product of the list with a quantity
    inside its range. *)
Definition cart_ok (catalog : list Product) (c : list CartItem) : Prop :=
  NoDup (map (fun item => id (product item)) c) /\
  Forall (fun item => in_range item /\ In (product item) catalog) c.

(** The list [fetchProducts] gives the page: identifiers are a primary key
    and the request asks for [.gt('stock_quantity', 0)]. *)
Definition catalog_ok (catalog : list Product) : Prop :=
  NoDup (map id catalog) /\ Forall (fun p => 0 < stock_quantity p) catalog.

(** The units of the product [pid] in the cart. *)
Fixpoint sold (pid : string) (cart : list CartItem) : Z :=
  match cart with
  | [] => 0
  | item :: rest =>
      (if String.eqb (id (product item)) pid then quantity item else 0)
      + sold pid rest
  end.

(** The sum of [quantity * unit_price] over rows of [sale_items]. *)
Fixpoint items_sum (rows : list SaleItem) : Q :=
  match rows with
  | [] => 0%Q
  | row :: rest => (inject_Z (item_quantity row) * unit_price row
                    + items_sum rest)%Q
  end.

(** [l] with rows added at its end. *)
Definition extends {A : Type} (l l' : list A) : Prop :=
  exists added, l' = l ++ added.

End SalesView.

(** ** Installments.tsx: receiving an installment *)

Module Payment.
Import Store.

(** [selectedInstallment], as [openPaymentModal] sets it from a row of a
    group. *)
Record Selected := mkSelected {
  selected_id : string;
  selected_amount : Q;
  selected_clientName : string
}.

(** The options of the select of the modal; the state starts at the
    first. *)
Inductive Method := money | pix | debit | credit.

(** [{ money: 'Dinheiro', pix: 'PIX', debit: 'Débito',
       credit: 'Crédito' }[paymentMethod] || paymentMethod] *)
Definition methodLabel (paymentMethod : Method) : string :=
  match paymentMethod with
  | money => "Dinheiro"
  | pix => "PIX"
  | debit => "Débito"
  | credit => "Crédito"
  end.

(** [new Date(year, month - 1, day, now.getHours(), now.getMinutes(),
      now.getSeconds())]: the day chosen in the modal with the time of day
    of the clock, in seconds. *)
Definition timestamp (paymentDate timeOfDay : Z) : Z :=
  paymentDate * 86400 + timeOfDay.

Record Env := mkEnv {
  update_error : option string;
  register_select_fails : bool;
  transaction_insert_fails : bool;
  time_of_day : Z
}.

(** The table of installments with its identifiers, as [fetchInstallments]
    reads it (the client of the sale joined in), next to the rest of the
    store. *)
Record Outcome := mkOutcome {
  rows : list Installments.Installment;
  store : Store.t;
  alert : option string
}.

Definition with_paid (i : Installments.Installment)
  : Installments.Installment :=
  {| Installments.id := Installments.id i;
     Installments.sale_id := Installments.sale_id i;
     Installments.installment_number := Installments.installment_number i;
     Installments.due_date := Installments.due_date i;
     Installments.amount := Installments.amount i;
     Installments.status := paid;
     Installments.client_id := Installments.client_id i;
     Installments.client_name := Installments.client_name i |}.

(** [from('installments').update({ status: 'paid' }).eq('id', rid)] *)
Definition mark_paid (rid : string) (table : list Installments.Installment)
  : list Installments.Installment :=
  map (fun i => if String.eqb (Installments.id i) rid
                then with_paid i else i) table.

Definition payment_entry (register : CashRegister) (sel : Selected)
           (paymentDate : Z) (paymentMethod : Method) (env : Env)
  : Transaction :=
  {| tx_register_id := register_id register;
     tx_sale_id := None;
     tx_installment_id := Some (selected_id sel);
     description := "Recebimento Parcela - " ++ selected_clientName sel
                    ++ " - " ++ methodLabel paymentMethod;
     amount := selected_amount sel;
     type := installment_payment;
     created_at := timestamp paymentDate (time_of_day env) |}.

Definition handleConfirmPayment (user : option string)
           (selectedInstallment : option Selected) (paymentDate : Z)
           (paymentMethod : Method) (env : Env)
           (table : list Installments.Installment) (st : Store.t)
  : Outcome :=
  match selectedInstallment with
  | None => {| rows := table; store := st; alert := None |}
  | Some sel =>
      match update_error env with
      | Some _ =>
          {| rows := table; store := st;
             alert := Some "Erro ao pagar parcela" |}
      | None =>
          let table' := mark_paid (selected_id sel) table in
          (* Register in Cash Flow *)
          let st' :=
            match user with
            | Some user =>
                if register_select_fails env then st
                else match select_open_register user st with
                     | Some register =>
                         if transaction_insert_fails env then st
                         else insert_transaction
                                (payment_entry register sel paymentDate
                                               paymentMethod env) st
                     | None => st
                     end
            | None => st
            end in
          {| rows := table'; store := st'; alert := None |}
      end
  end.

(** [openPaymentModal(installment.id, installment.amount,
      group.clientName)] *)
Definition openPaymentModal (i : Installments.Installment) : Selected :=
  {| selected_id := Installments.id i;
     selected_amount := Installments.amount i;
     selected_clientName := Installments.client_name i |}.

End Payment.

(** ** SalesHistory.tsx: the label of a payment method *)

Module SalesHistory.

(** [method.split('_')] *)
Fixpoint split_underscore (s : string) : list string :=
  match s with
  | EmptyString => [EmptyString]
  | String c rest =>
      if Ascii.eqb c "_"%char then EmptyString :: split_underscore rest
      else match split_underscore rest with
           | first :: others => String c first :: others
           | [] => [String c EmptyString]
           end
  end.

Definition methods : list (string * string) :=
  [ ("pix", "PIX"); ("money", "Dinheiro"); ("debit", "Débito");
    ("credit", "Crédito") ].

Fixpoint table_lookup (key : string) (table : list (string * string))
  : option string :=
  match table with
  | [] => None
  | (k, v) :: rest => if String.eqb k key then Some v else table_lookup key rest
  end.

(** [formatPaymentMethod]; [None] is the value that is no string, which
    [methods[method]] gives for a name of [Object.prototype]. *)
Definition formatPaymentMethod (method : string) : option string :=
  if prefix "credit_card_" method then
    let installments := nth 2 (split_underscore method) "undefined" in
    Some ("Crédito (" ++ installments ++ ")")%string
  else
    match table_lookup method methods with
    | Some label => Some label
    | None => if Installments.inherited method then None else Some method
    end.

(** A string without the character [_]. *)
Fixpoint underscore_free (s : string) : Prop :=
  match s with
  | EmptyString => True
  | String c rest => Ascii.eqb c "_"%char = false /\ underscore_free rest
  end.

End SalesHistory.

(** ** The vocabulary of the statements about receipts *)

Module Sums.
Import Store.

(** What an installment counts for in the sum of the status [s]. *)
Definition counts (s : InstallmentStatus) (i : Installments.Installment)
  : Q :=
  if Installments.status_eqb (Installments.status i) s
  then Installments.amount i else 0%Q.

Fixpoint sum_counts (s : InstallmentStatus)
         (l : list Installments.Installment) : Q :=
  match l with
  | [] => 0%Q
  | i :: rest => (counts s i + sum_counts s rest)%Q
  end.

End Sums.

(** ** More concrete stores and pages *)

Module Examples.
Import Store.

(** An operator who opened a register in each of two sessions. *)
Definition second_register : CashRegister :=
  mkCashRegister "reg-2" "op" 2 None (50 # 1) None open.

Definition two_register_store : Store.t :=
  mkStore [Scenario.caderno 4] [] [] []
          (Scenario.one_register ++ [second_register]) [] [].

Definition empty_ledger_page : CashFlow.State :=
  {| CashFlow.register := None; CashFlow.transactions := [] |}.

Definition open_env : CashFlow.OpenEnv :=
  {| CashFlow.new_register_id := "reg-2";
     CashFlow.open_insert_error := None;
     CashFlow.opening_insert_fails := false;
     CashFlow.fetch_error := None;
     CashFlow.open_time := 2 |}.

(** Installments fetched with those of Bia before those of the two
    clients called Ana. *)
Definition bia_first : list Installments.Installment :=
  [Scenario.bia_pending; Scenario.ana1_pending; Scenario.ana2_overdue].

(** A client called like a method of every object. *)
Definition constructor_pending : Installments.Installment :=
  Installments.mkInstallment "i9" "s9" 1 140 (12 # 1) pending "c9"
                             "constructor".

End Examples.

(** * Properties *)

Lemma Qltb_lt (a b : Q) : Qltb a b = true <-> (a < b)%Q.
Proof.
  unfold Qltb. rewrite negb_true_iff.
  split.
  - intros H. apply Qnot_le_lt. intros Hle.
    apply Qle_bool_iff in Hle. congruence.
  - intros H. destruct (Qle_bool b a) eqn:E; [|reflexivity].
    apply Qle_bool_iff in E. exfalso. exact (Qlt_not_le _ _ H E).
Qed.

(** ** The cart *)

Section CartFacts.
Import Store Sales.

Lemma updateLine_step productId delta item :
  line_step productId delta item (updateLine productId delta item).
Proof.
  unfold line_step, updateLine, in_range.
  destruct (String.eqb_spec (id (product item)) productId) as [Hid|Hid];
    [|now left].
  cbv zeta.
  destruct (Z.ltb_spec (quantity item + delta) 1) as [Hlo|Hlo]; [now left|].
  destruct (Z.gtb_spec (quantity item + delta) (stock_quantity (product item)))
    as [Hhi|Hhi]; [now left|].
  right. cbn. repeat split; try assumption; lia.
Qed.

Lemma updateLine_out_of_range productId delta item :
  ~ (1 <= quantity item + delta <= stock_quantity (product item)) ->
  updateLine productId delta item = item.
Proof.
  intros Hout.
  destruct (updateLine_step productId delta item) as [H|(_ & Hp & Hq & Hr)];
    [exact H|].
  exfalso. apply Hout. unfold in_range in Hr. rewrite Hq, Hp in Hr. exact Hr.
Qed.

Lemma updateLine_keeps_range productId delta item :
  in_range item -> in_range (updateLine productId delta item).
Proof.
  intros Hin.
  destruct (updateLine_step productId delta item) as [H|(_ & _ & _ & Hr)];
    [now rewrite H | exact Hr].
Qed.

(** C8: [updateQuantity] (the spec's [changeQuantity]) keeps every line of
    the cart, in its place; a line it changes is the line of [productId] and
    gets a quantity inside [1, stock_quantity]; a delta whose result would
    fall outside that range leaves the line as it was (so no line is ever
    removed or driven to zero), and a line that was in range stays in
    range. *)
Theorem updateQuantity_stays_in_range :
  forall (productId : string) (delta : Z) (current : list CartItem),
    Forall2 (fun item item' =>
               line_step productId delta item item' /\
               (~ (1 <= quantity item + delta
                     <= stock_quantity (product item)) -> item' = item) /\
               (in_range item -> in_range item'))
            current (updateQuantity productId delta current).
Proof.
  intros productId delta current. unfold updateQuantity.
  induction current as [|item rest IH]; cbn; constructor; [|exact IH].
  split; [apply updateLine_step|].
  split; [apply updateLine_out_of_range | apply updateLine_keeps_range].
Qed.

Lemma find_not_in_cart p current :
  not_in_cart p current ->
  js_find (fun item => String.eqb (id (product item)) (id p)) current = None.
Proof.
  unfold js_find. induction current as [|item rest IH]; intros Hnot;
    [reflexivity|].
  cbn. destruct (String.eqb_spec (id (product item)) (id p)) as [E|_].
  - exfalso. exact (Hnot item (or_introl eq_refl) E).
  - apply IH. intros i Hi. apply Hnot. now right.
Qed.

(** C9: for a product that is not in the cart, [addToCart] appends a line
    of quantity 1 whatever the stock of the product is (with a stock of 0
    or less the new line exceeds the stock); the stock is only looked at
    when the product is already in the cart: the line found is a line of
    the cart for that product, the cart is returned as it is once that line
    has reached the stock, and below the stock the lines of the product are
    raised by one and the other lines are kept. *)
Theorem addToCart_checks_stock_only_on_increment :
  forall (p : Product) (current : list CartItem),
    (not_in_cart p current ->
     addToCart p current = current ++ [ {| product := p; quantity := 1 |} ] /\
     (stock_quantity p <= 0 ->
      exists line, In line (addToCart p current) /\
                   product line = p /\ quantity line = 1 /\
                   quantity line > stock_quantity (product line))) /\
    (forall existing,
        js_find (fun item => String.eqb (id (product item)) (id p)) current
        = Some existing ->
        In existing current /\ id (product existing) = id p /\
        (stock_quantity p <= quantity existing ->
         addToCart p current = current) /\
        (quantity existing < stock_quantity p ->
         addToCart p current
         = map (fun item => if String.eqb (id (product item)) (id p)
                            then with_quantity item (quantity item + 1)
                            else item) current /\
         In (with_quantity existing (quantity existing + 1))
            (addToCart p current))).
Proof.
  intros p current. split.
  - intros Hnot.
    assert (E : addToCart p current
                = current ++ [ {| product := p; quantity := 1 |} ]).
    { unfold addToCart. now rewrite (find_not_in_cart p current Hnot). }
    split; [exact E|].
    intros Hstock. exists {| product := p; quantity := 1 |}.
    rewrite E. split; [apply in_or_app; right; now left|].
    cbn. repeat split. lia.
  - intros existing Hfind.
    destruct (find_some _ _ Hfind) as (Hin & Hid).
    apply String.eqb_eq in Hid.
    split; [exact Hin|]. split; [exact Hid|]. split.
    + intros Hcap. unfold addToCart. rewrite Hfind.
      destruct (Z.geb_spec (quantity existing) (stock_quantity p));
        [reflexivity|lia].
    + intros Hbelow.
      assert (E : addToCart p current
                  = map (fun item =>
                           if String.eqb (id (product item)) (id p)
                           then with_quantity item (quantity item + 1)
                           else item) current).
      { unfold addToCart. rewrite Hfind.
        destruct (Z.geb_spec (quantity existing) (stock_quantity p));
          [lia|reflexivity]. }
      split; [exact E|]. rewrite E.
      apply in_map_iff. exists existing. split; [|exact Hin].
      apply String.eqb_eq in Hid. now rewrite Hid.
Qed.

(** C9 on a cart holding one notebook, of which two are in stock: a pen
    that is out of stock is added next to it with quantity 1; adding the
    notebook raises its line to 2; adding it once more leaves the cart as
    it is. *)
Lemma addToCart_out_of_stock_example :
  addToCart (mkProduct "p2" "Caneta" "0002" (2 # 1) 0)
            [ {| product := mkProduct "p1" "Caderno" "0001" (15 # 1) 2;
                 quantity := 1 |} ]
  = [ {| product := mkProduct "p1" "Caderno" "0001" (15 # 1) 2;
         quantity := 1 |};
      {| product := mkProduct "p2" "Caneta" "0002" (2 # 1) 0;
         quantity := 1 |} ] /\
  addToCart (mkProduct "p1" "Caderno" "0001" (15 # 1) 2)
            [ {| product := mkProduct "p1" "Caderno" "0001" (15 # 1) 2;
                 quantity := 1 |} ]
  = [ {| product := mkProduct "p1" "Caderno" "0001" (15 # 1) 2;
         quantity := 2 |} ] /\
  addToCart (mkProduct "p1" "Caderno" "0001" (15 # 1) 2)
            [ {| product := mkProduct "p1" "Caderno" "0001" (15 # 1) 2;
                 quantity := 2 |} ]
  = [ {| product := mkProduct "p1" "Caderno" "0001" (15 # 1) 2;
         quantity := 2 |} ].
Proof.
  split; [|split].
  - apply (addToCart_checks_stock_only_on_increment
             (mkProduct "p2" "Caneta" "0002" (2 # 1) 0)
             [ {| product := mkProduct "p1" "Caderno" "0001" (15 # 1) 2;
                  quantity := 1 |} ]).
    intros item [<- | []]. discriminate.
  - destruct (addToCart_checks_stock_only_on_increment
                (mkProduct "p1" "Caderno" "0001" (15 # 1) 2)
                [ {| product := mkProduct "p1" "Caderno" "0001" (15 # 1) 2;
                     quantity := 1 |} ]) as (_ & Hfound).
    destruct (Hfound _ eq_refl) as (_ & _ & _ & Hraise).
    destruct (Hraise eq_refl) as (E & _). exact E.
  - destruct (addToCart_checks_stock_only_on_increment
                (mkProduct "p1" "Caderno" "0001" (15 # 1) 2)
                [ {| product := mkProduct "p1" "Caderno" "0001" (15 # 1) 2;
                     quantity := 2 |} ]) as (_ & Hfound).
    destruct (Hfound _ eq_refl) as (_ & _ & Hcap & _).
    apply Hcap. discriminate.
Defined.

End CartFacts.

(** ** The cash register ledger *)

Section LedgerFacts.
Import Store CashFlow Scenario.

Lemma signed_step (acc : Q) (t : Transaction) :
  (match type t with
   | withdrawal => acc - amount t
   | _ => acc + amount t
   end == acc + signed_amount t)%Q.
Proof.
  unfold signed_amount. destruct (type t); try reflexivity.
Qed.

Lemma fold_balance_from (l : list Transaction) (acc : Q) :
  (fold_left (fun acc curr =>
                match type curr with
                | withdrawal => acc - amount curr
                | _ => acc + amount curr
                end) l acc
   == acc + signed_sum l)%Q.
Proof.
  revert acc. induction l as [|t rest IH]; intros acc; cbn [fold_left signed_sum].
  - ring.
  - rewrite IH, signed_step. ring.
Qed.

Lemma calculateBalance_signed_sum (l : list Transaction) :
  (calculateBalance l == signed_sum l)%Q.
Proof.
  unfold calculateBalance. rewrite fold_balance_from. ring.
Qed.

Lemma signed_sum_perm (l l' : list Transaction) :
  Permutation l l' -> (signed_sum l == signed_sum l')%Q.
Proof.
  induction 1 as [|t l l' _ IH|t u l|l l' l'' _ IH1 _ IH2]; cbn [signed_sum].
  - reflexivity.
  - now rewrite IH.
  - ring.
  - now rewrite IH1.
Qed.

Lemma insert_desc_perm (t : Transaction) (l : list Transaction) :
  Permutation (t :: l) (insert_desc t l).
Proof.
  induction l as [|u rest IH]; cbn [insert_desc]; [reflexivity|].
  destruct (created_at t <? created_at u); [|reflexivity].
  rewrite perm_swap. now apply perm_skip.
Qed.

Lemma order_desc_perm (l : list Transaction) : Permutation l (order_desc l).
Proof.
  unfold order_desc. induction l as [|t rest IH]; cbn [fold_right];
    [reflexivity|].
  rewrite <- insert_desc_perm. now apply perm_skip.
Qed.

(** C5: the balance computed from the rows a served [fetchTransactions]
    reads for a register, whatever the page showed before, is the sum, over
    all transactions of that register in the store (the opening entry
    included), of [- amount] for a withdrawal and [+ amount] for every other
    type; after opening with 100.00, a sale entry of 50.00 and a withdrawal
    of 20.00 it is 130.00. *)
Theorem calculateBalance_is_signed_sum :
  (forall (registerId : string) (shown : list Transaction) (st : Store.t),
      calculateBalance (fetchTransactions None registerId shown st)
      == signed_sum (filter (fun t => String.eqb (tx_register_id t) registerId)
                            (cash_transactions st)))%Q /\
  map (fun t => (type t, amount t))
      (fetchTransactions None "reg-1" [] scenario_store)
  = [ (withdrawal, 20 # 1); (sale, 50 # 1); (opening, 100 # 1) ] /\
  calculateBalance (fetchTransactions None "reg-1" [] scenario_store)
  = 130 # 1.
Proof.
  split; [|split; vm_compute; reflexivity].
  intros registerId shown st. rewrite calculateBalance_signed_sum.
  unfold fetchTransactions, select_transactions. apply signed_sum_perm.
  symmetry. apply order_desc_perm.
Qed.

(** C6: when the operator confirms and the store accepts both requests,
    closing the register of the page appends one transaction of type
    closing whose amount is the balance computed from the transactions of
    the page, and every register row with that identifier is then closed
    with that same balance as its final balance; the other rows are as
    before. *)
Theorem handleCloseRegister_records_balance :
  forall (s : State) (env : CloseEnv) (st : Store.t) (r : CashRegister),
    register s = Some r ->
    confirm env = true ->
    close_update_error env = None ->
    closing_insert_fails env = false ->
    let b := calculateBalance (transactions s) in
    let st' := store (handleCloseRegister s env st) in
    cash_transactions st'
    = cash_transactions st ++ [closing_row r b (close_time env)] /\
    Forall2 (fun row row' =>
               register_id row' = register_id row /\
               if String.eqb (register_id row) (register_id r)
               then status row' = closed /\ final_balance row' = Some b
               else row' = row)
            (cash_registers st) (cash_registers st').
Proof.
  intros s env st r Hr Hc Hu Hi b st'. subst st'.
  unfold handleCloseRegister. rewrite Hr, Hc. cbn [negb].
  unfold bind, write. rewrite Hu, Hi. cbn.
  split; [reflexivity|].
  induction (cash_registers st) as [|row rest IH]; cbn; constructor;
    [|exact IH].
  destruct (String.eqb (register_id row) (register_id r)); cbn; auto.
Qed.

(** C6 on a register opened with 100.00 that saw a sale of 50.00. *)
Lemma handleCloseRegister_example :
  cash_transactions (store (handleCloseRegister ledger_page confirmed_close
                                                ledger_store))
  = ledger_rows ++ [closing_row open_register (150 # 1) 9] /\
  cash_registers (store (handleCloseRegister ledger_page confirmed_close
                                             ledger_store))
  = [mkCashRegister "reg-1" "op" 1 (Some 9) (100 # 1) (Some (150 # 1)) closed].
Proof.
  destruct (handleCloseRegister_records_balance
              ledger_page confirmed_close ledger_store open_register
              eq_refl eq_refl eq_refl eq_refl) as [Htx _].
  split; [exact Htx | reflexivity].
Defined.

End LedgerFacts.

(** ** The checkout *)

Section CheckoutFacts.
Import Store Sales Scenario.

Lemma same_but_stock_refl st : same_but_stock st st.
Proof. repeat split. Qed.

Lemma same_but_stock_trans st1 st2 st3 :
  same_but_stock st1 st2 -> same_but_stock st2 st3 -> same_but_stock st1 st3.
Proof.
  unfold same_but_stock.
  intros (A1 & A2 & A3 & A4 & A5 & A6 & A7) (B1 & B2 & B3 & B4 & B5 & B6 & B7).
  repeat split; congruence.
Qed.

Lemma update_stock_same pid q st : same_but_stock st (update_stock pid q st).
Proof.
  unfold same_but_stock, update_stock; cbn. repeat split.
  rewrite map_map. apply map_ext. intros p.
  now destruct (String.eqb (id p) pid).
Qed.

Lemma updateStock_run env item st :
  exists st', updateStock env item st = (st', Ok tt) /\ same_but_stock st st'.
Proof.
  unfold updateStock, bind, read, write, select_response.
  destruct (stock_select_fails env (id (product item))); cbn.
  - exists st. split; [reflexivity | apply same_but_stock_refl].
  - destruct (select_stock (id (product item)) st) as [stock|]; cbn.
    + destruct (stock_update_fails env (id (product item))); cbn.
      * exists st. split; [reflexivity | apply same_but_stock_refl].
      * eexists. split; [reflexivity | apply update_stock_same].
    + exists st. split; [reflexivity | apply same_but_stock_refl].
Qed.

Lemma stock_loop_run env (l : list CartItem) st :
  exists st', for_of l (updateStock env) st = (st', Ok tt) /\
              same_but_stock st st'.
Proof.
  revert st. induction l as [|item rest IH]; intros st; cbn [for_of].
  - exists st. split; [reflexivity | apply same_but_stock_refl].
  - destruct (updateStock_run env item st) as (st1 & E1 & S1).
    destruct (IH st1) as (st2 & E2 & S2).
    exists st2. unfold bind. rewrite E1, E2.
    split; [reflexivity | exact (same_but_stock_trans _ _ _ S1 S2)].
Qed.

Lemma after_stock_same user s env st :
  same_but_stock (after_installments user s env st) (after_stock user s env st).
Proof.
  unfold after_stock.
  destruct (stock_loop_run env (cart s) (after_installments user s env st))
    as (st' & E & S).
  now rewrite E.
Qed.

(** The run of the [try] block, by the first checked request that fails. *)
Lemma checkoutBody_run user s env st :
  checkoutBody user s env st =
  match sale_error env with
  | Some e => (st, Throw e)
  | None =>
  match items_error env with
  | Some e => (after_sale user s env st, Throw e)
  | None =>
  match paymentType s, installments_error env with
  | installment, Some e => (after_items user s env st, Throw e)
  | _, _ =>
  match receipt_error env with
  | Some e => (after_stock user s env st, Throw e)
  | None => (after_ledger user s env st, Ok tt)
  end end end end.
Proof.
  unfold checkoutBody, bind, write.
  destruct (sale_error env) as [e1|]; [reflexivity|].
  destruct (items_error env) as [e2|]; [reflexivity|].
  fold (the_sale user s env). cbn [sale_id the_sale].
  fold (the_sale user s env). fold (after_sale user s env st).
  fold (after_items user s env st).
  assert (Hloop : forall st3, st3 = after_installments user s env st ->
            for_of (cart s) (updateStock env) st3
            = (after_stock user s env st, Ok tt)).
  { intros st3 ->. unfold after_stock.
    destruct (stock_loop_run env (cart s) (after_installments user s env st))
      as (st' & E & _).
    now rewrite E. }
  unfold after_ledger.
  destruct (paymentType s) eqn:Hpay.
  - (* cash *)
    unfold ret at 1.
    rewrite (Hloop (after_items user s env st))
      by (unfold after_installments; now rewrite Hpay).
    destruct (receipt_error env) as [e4|]; [reflexivity|].
    unfold ret at 1. unfold read, select_response.
    destruct (register_select_fails env); [reflexivity|].
    destruct (select_open_register user (after_stock user s env st))
      as [r|]; [|reflexivity].
    destruct (transaction_insert_fails env); reflexivity.
  - (* installment *)
    destruct (installments_error env) as [e3|]; [reflexivity|].
    unfold ret at 1.
    rewrite (Hloop _) by (unfold after_installments; now rewrite Hpay).
    destruct (receipt_error env) as [e4|]; reflexivity.
Qed.

Lemma insufficient_test s :
  is_cash (paymentType s) && String.eqb (paymentMethod s) "money"
  && Qltb (amountPaid s) (total (cart s)) = true <-> insufficient s.
Proof.
  unfold insufficient.
  rewrite !andb_true_iff, String.eqb_eq, Qltb_lt.
  destruct (paymentType s); cbn; intuition congruence.
Qed.

Lemma empty_test (l : list CartItem) :
  (List.length l =? 0)%nat = true <-> l = [].
Proof. destruct l; cbn; split; congruence. Qed.

Lemma handleCheckout_valid user s env st :
  valid s ->
  handleCheckout user s env st =
  match checkoutBody user s env st with
  | (st', Ok _) =>
      {| page := reset s; store := st';
         alert := "Venda realizada com sucesso!" |}
  | (st', Throw message) =>
      {| page := s; store := st';
         alert := ("Erro ao processar venda: " ++ message)%string |}
  end.
Proof.
  intros (Hc & Hcart & Hpay). unfold handleCheckout.
  destruct (String.eqb_spec (selectedClient s) "") as [E|_]; [contradiction|].
  destruct (List.length (cart s) =? 0)%nat eqn:El.
  { apply empty_test in El. contradiction. }
  destruct (is_cash (paymentType s) && String.eqb (paymentMethod s) "money"
            && Qltb (amountPaid s) (total (cart s))) eqn:Ep; [|reflexivity].
  apply insufficient_test in Ep. contradiction.
Qed.

(** C3: when no client is selected, or the cart is empty, or the payment is
    immediate with the method money and the amount paid is below the total,
    [handleCheckout] leaves every table of the store (and the page) as it
    found them and alerts the message of the first check that fails. *)
Theorem handleCheckout_rejects_without_writing :
  forall (user : string) (s : State) (env : Env) (st : Store.t),
    selectedClient s = "" \/ cart s = [] \/ insufficient s ->
    let out := handleCheckout user s env st in
    store out = st /\ page out = s /\
    (selectedClient s = "" -> alert out = "Selecione um cliente") /\
    (selectedClient s <> "" -> cart s = [] -> alert out = "Carrinho vazio") /\
    (selectedClient s <> "" -> cart s <> [] ->
     alert out = "Valor pago insuficiente").
Proof.
  intros user s env st H. cbv zeta. unfold handleCheckout.
  destruct (String.eqb_spec (selectedClient s) "") as [E|NE].
  { cbn. repeat split; intros; congruence. }
  destruct (List.length (cart s) =? 0)%nat eqn:El.
  { apply empty_test in El. cbn. repeat split; intros; congruence. }
  assert (Hne : cart s <> []).
  { intros E. apply empty_test in E. congruence. }
  destruct H as [H|[H|H]]; [contradiction | contradiction |].
  apply insufficient_test in H. rewrite H. cbn.
  repeat split; intros; congruence.
Qed.

(** C3 on the scenario of the spec: 10.00 tendered in cash against a cart
    of 15.00 is turned down and nothing is written. *)
Lemma underpaid_checkout_rejected :
  store (handleCheckout "op" underpaid_page quiet_env small_store)
  = small_store /\
  alert (handleCheckout "op" underpaid_page quiet_env small_store)
  = "Valor pago insuficiente".
Proof.
  assert (H : selectedClient underpaid_page = "" \/
              cart underpaid_page = [] \/ insufficient underpaid_page).
  { right. right. repeat split. }
  destruct (handleCheckout_rejects_without_writing
              "op" underpaid_page quiet_env small_store H)
    as (Hst & _ & _ & _ & Hal).
  split; [exact Hst|].
  apply Hal; discriminate.
Defined.

Lemma nth_error_map_seq {A : Type} (f : nat -> A) (n k start : nat) :
  (k < n)%nat -> nth_error (map f (seq start n)) k = Some (f (start + k)%nat).
Proof.
  revert k start. induction n as [|n IH]; intros k start Hk; [lia|].
  destruct k as [|k]; cbn.
  - now rewrite Nat.add_0_r.
  - rewrite IH by lia. f_equal. f_equal. lia.
Qed.

(** C2: a checkout paid by installment that passes the checks and whose
    inserts of the sale, of the line items and of the installments are
    accepted adds exactly N rows to the installments, N being the number
    of installments chosen; the row of rank k (from 1) carries the number
    k, the amount total / N (the same quotient in every row, no remainder
    moved), the status pending and the due date 30 k days after the day
    of the checkout. *)
Theorem handleCheckout_creates_installments :
  forall (user : string) (s : State) (env : Env) (st : Store.t),
    valid s ->
    paymentType s = installment ->
    sale_error env = None ->
    items_error env = None ->
    installments_error env = None ->
    exists created : list Store.Installment,
      Store.installments (store (handleCheckout user s env st))
      = Store.installments st ++ created /\
      List.length created = installments s /\
      forall k : nat,
        (k < installments s)%nat ->
        nth_error created k
        = Some {| inst_sale_id := new_sale_id env;
                  installment_number := Z.of_nat k + 1;
                  due_date := today env + 30 * (Z.of_nat k + 1);
                  inst_amount :=
                    (total (cart s) / inject_Z (Z.of_nat (installments s)))%Q;
                  inst_status := pending |}.
Proof.
  intros user s env st Hv Hp Hs Hi Hn.
  exists (installmentData (new_sale_id env) (total (cart s)) (installments s)
                          (today env)).
  split; [|split].
  - rewrite (handleCheckout_valid user s env st Hv), checkoutBody_run.
    rewrite Hs, Hi, Hp, Hn.
    assert (E : Store.installments (after_stock user s env st)
                = Store.installments st
                    ++ installmentData (new_sale_id env) (total (cart s))
                                       (installments s) (today env)).
    { destruct (after_stock_same user s env st) as (_ & _ & _ & E & _).
      rewrite E. unfold after_installments. now rewrite Hp. }
    destruct (receipt_error env); cbn [store]; [exact E|].
    unfold after_ledger. now rewrite Hp.
  - unfold installmentData. now rewrite length_map, length_seq.
  - intros k Hk. unfold installmentData.
    now rewrite nth_error_map_seq by exact Hk.
Qed.

(** The page of the installment sale passes the three checks. *)
Lemma valid_installment_page : valid installment_page.
Proof.
  repeat split; try discriminate.
  intros (H & _). discriminate H.
Defined.

(** C2 on the scenario of the spec: a cart of 2 x 10.00 and 1 x 5.00 paid
    in 3 installments of 25/3 each, the last one due 90 days on. *)
Lemma installment_checkout_example :
  exists created : list Store.Installment,
    Store.installments
      (store (handleCheckout "op" installment_page quiet_env two_product_store))
    = created /\
    List.length created = 3%nat /\
    nth_error created 2
    = Some {| inst_sale_id := "3f2a9c1e-0001"; installment_number := 3;
              due_date := 190; inst_amount := 25 # 3;
              inst_status := pending |}.
Proof.
  destruct (handleCheckout_creates_installments
              "op" installment_page quiet_env two_product_store
              valid_installment_page eq_refl eq_refl eq_refl eq_refl)
    as (created & E & L & N).
  exists created. split; [exact E|]. split; [exact L|].
  exact (N 2%nat (le_n 3)).
Defined.

Lemma after_installments_frame user s env st :
  products (after_installments user s env st) = products st /\
  cash_registers (after_installments user s env st) = cash_registers st /\
  cash_transactions (after_installments user s env st) = cash_transactions st.
Proof.
  unfold after_installments, after_items, after_sale.
  destruct (paymentType s); cbn; repeat split.
Qed.

Lemma after_stock_frame user s env st :
  cash_registers (after_stock user s env st) = cash_registers st /\
  cash_transactions (after_stock user s env st) = cash_transactions st.
Proof.
  destruct (after_stock_same user s env st) as (_ & _ & _ & _ & R & T & _).
  destruct (after_installments_frame user s env st) as (_ & R' & T').
  split; congruence.
Qed.

(** The run of [handleCheckout] ends with the alert of success only when it
    reached the end of the [try] block. *)
Lemma success_inv user s env st :
  alert (handleCheckout user s env st) = "Venda realizada com sucesso!" ->
  store (handleCheckout user s env st) = after_ledger user s env st.
Proof.
  unfold handleCheckout.
  destruct (String.eqb (selectedClient s) ""); [discriminate|].
  destruct (List.length (cart s) =? 0)%nat; [discriminate|].
  destruct (is_cash (paymentType s) && String.eqb (paymentMethod s) "money"
            && Qltb (amountPaid s) (total (cart s))); [discriminate|].
  rewrite checkoutBody_run.
  destruct (sale_error env); [discriminate|].
  destruct (items_error env); [discriminate|].
  destruct (paymentType s), (installments_error env); try discriminate;
    destruct (receipt_error env); try discriminate; reflexivity.
Qed.

Lemma open_registers_spec user st r :
  In r (open_registers user st) <->
  In r (cash_registers st) /\ register_user_id r = user /\ status r = open.
Proof.
  unfold open_registers. rewrite filter_In, andb_true_iff, String.eqb_eq.
  destruct (status r); cbn; intuition congruence.
Qed.

Lemma ledgerAmount_min s :
  ledgerAmount s
  = if String.eqb (paymentMethod s) "money"
    then Qmin (amountPaid s) (total (cart s))
    else total (cart s).
Proof.
  unfold ledgerAmount.
  destruct (String.eqb (paymentMethod s) "money"); [|reflexivity].
  unfold Qmin, GenericMinMax.gmin, Qltb.
  destruct (Qle_bool (amountPaid s) (total (cart s))) eqn:E; cbn [negb].
  - apply Qle_bool_iff in E.
    pose proof (proj1 (Qle_alt _ _) E) as NGt.
    destruct (amountPaid s ?= total (cart s))%Q; congruence.
  - destruct (amountPaid s ?= total (cart s))%Q eqn:C; [| |reflexivity];
      exfalso; assert (L : (amountPaid s <= total (cart s))%Q)
        by (apply Qle_alt; congruence);
      apply Qle_bool_iff in L; congruence.
Qed.

(** C4, refuted as stated: an operator with two open registers pays 20.00
    in cash for a sale of 15.00; the lookup and the insert are served and
    the checkout alerts the success, the payment is immediate and the
    operator has an open register, and yet no cash transaction is
    recorded. *)
Lemma checkout_two_open_registers_no_entry :
  alert (handleCheckout "op" overpaid_page quiet_env
                        Examples.two_register_store)
  = "Venda realizada com sucesso!" /\
  register_select_fails quiet_env = false /\
  transaction_insert_fails quiet_env = false /\
  paymentType overpaid_page = cash /\
  has_open_register "op" Examples.two_register_store /\
  cash_transactions
    (store (handleCheckout "op" overpaid_page quiet_env
                           Examples.two_register_store))
  = cash_transactions Examples.two_register_store.
Proof.
  repeat split; try reflexivity.
  exists Examples.second_register.
  split; [right; now left | split; reflexivity].
Qed.

(** C4, amended: in a checkout that runs to its end (it alerts the
    success), with the lookup of the register and the insert of the entry
    answered by the store, one cash transaction of type sale is added when
    the payment is immediate and the operator has exactly one open
    register, and it goes to that register; none is added otherwise, that
    is for an installment sale and for an operator with no open register
    or with several.  Its amount is the smaller of the amount paid and the
    total when the method is money, and the total for every other
    method. *)
Theorem handleCheckout_ledger_entry :
  forall (user : string) (s : State) (env : Env) (st : Store.t),
    alert (handleCheckout user s env st) = "Venda realizada com sucesso!" ->
    register_select_fails env = false ->
    transaction_insert_fails env = false ->
    let st' := store (handleCheckout user s env st) in
    (forall r,
        paymentType s = cash -> open_registers user st = [r] ->
        exists tx,
          cash_transactions st' = cash_transactions st ++ [tx] /\
          type tx = Store.sale /\
          tx_sale_id tx = Some (new_sale_id env) /\
          tx_register_id tx = register_id r /\
          amount tx = if String.eqb (paymentMethod s) "money"
                      then Qmin (amountPaid s) (total (cart s))
                      else total (cart s)) /\
    (paymentType s = installment \/
     List.length (open_registers user st) <> 1%nat ->
     cash_transactions st' = cash_transactions st).
Proof.
  intros user s env st Hok Hsel Hins st'. subst st'.
  rewrite (success_inv user s env st Hok).
  destruct (after_stock_frame user s env st) as (HR & HT).
  assert (Hopen : open_registers user (after_stock user s env st)
                  = open_registers user st).
  { unfold open_registers. now rewrite HR. }
  unfold after_ledger. rewrite Hsel, Hins.
  unfold select_open_register. rewrite Hopen.
  split.
  - intros r Hcash Hone. rewrite Hcash, Hone. cbn [single].
    exists (the_entry s env r). cbn. rewrite HT.
    repeat split. apply ledgerAmount_min.
  - intros [Hinst | Hlen].
    + now rewrite Hinst.
    + destruct (paymentType s); [|exact HT].
      destruct (open_registers user st) as [|r [|r' rest]]; cbn in *;
        try exact HT.
      congruence.
Qed.

(** C4 on a sale of 15.00 paid with 20.00 in cash by an operator whose
    only open register is reg-1: the entry is of 15.00 and goes to
    reg-1. *)
Lemma cash_checkout_ledger_example :
  exists tx,
    cash_transactions
      (store (handleCheckout "op" overpaid_page quiet_env small_store))
    = [tx] /\
    type tx = Store.sale /\ tx_register_id tx = "reg-1" /\
    amount tx = 15 # 1.
Proof.
  destruct (handleCheckout_ledger_entry
              "op" overpaid_page quiet_env small_store
              eq_refl eq_refl eq_refl) as (Hyes & _).
  destruct (Hyes (mkCashRegister "reg-1" "op" 1 None (100 # 1) None open)
                 eq_refl eq_refl)
    as (tx & Htx & Hty & _ & Hreg & Ham).
  exists tx. split; [exact Htx|]. split; [exact Hty|].
  split; [exact Hreg | exact Ham].
Defined.

Lemma filter_by_key (pid : string) (ps : list Product) :
  NoDup (map id ps) ->
  (filter (fun p => String.eqb (id p) pid) ps = [] /\
   forall p, In p ps -> id p <> pid) \/
  (exists p0, filter (fun p => String.eqb (id p) pid) ps = [p0] /\
              forall p, In p ps -> id p = pid -> p = p0).
Proof.
  induction ps as [|a rest IH]; intros Hnd; cbn.
  - left. split; [reflexivity | intros p []].
  - inversion Hnd as [|? ? Hnotin Hnd']; subst.
    destruct (String.eqb_spec (id a) pid) as [E|NE].
    + right. exists a.
      assert (Hnone : forall p, In p rest -> id p <> pid).
      { intros p Hp Hid. apply Hnotin. rewrite E, <- Hid. now apply in_map. }
      split.
      * f_equal. destruct (IH Hnd') as [(F & _)|(p0 & F & _)]; [exact F|].
        exfalso.
        assert (Hin : In p0 (filter (fun p => String.eqb (id p) pid) rest))
          by (rewrite F; now left).
        apply filter_In in Hin. destruct Hin as (Hin & Hid).
        apply String.eqb_eq in Hid. exact (Hnone p0 Hin Hid).
      * intros p [<-|Hp] Hid; [reflexivity|].
        exfalso. exact (Hnone p Hp Hid).
    + destruct (IH Hnd') as [(F & Hnone)|(p0 & F & Huniq)].
      * left. split; [exact F|]. intros p [<-|Hp]; [exact NE | now apply Hnone].
      * right. exists p0. split; [exact F|].
        intros p [<-|Hp] Hid; [contradiction | now apply Huniq].
Qed.

Lemma updateStock_decrements env item st :
  NoDup (map id (products st)) ->
  stock_select_fails env (id (product item)) = false ->
  stock_update_fails env (id (product item)) = false ->
  products (fst (updateStock env item st))
  = decrement (id (product item)) (quantity item) (products st).
Proof.
  intros Hnd Hsel Hupd.
  unfold updateStock, bind, read, write, select_response, select_stock.
  rewrite Hsel, Hupd. unfold decrement.
  destruct (filter_by_key (id (product item)) (products st) Hnd)
    as [(F & Hnone)|(p0 & F & Huniq)]; rewrite F; cbn.
  - symmetry. rewrite <- (map_id (products st)) at 2.
    apply map_ext_in. intros p Hp.
    destruct (String.eqb_spec (id p) (id (product item))) as [E|_];
      [|reflexivity].
    exfalso. exact (Hnone p Hp E).
  - apply map_ext_in. intros p Hp.
    destruct (String.eqb_spec (id p) (id (product item))) as [E|_];
      [|reflexivity].
    now rewrite (Huniq p Hp E).
Qed.

Lemma stock_loop_decrements env (l : list CartItem) st :
  NoDup (map id (products st)) ->
  (forall pid, stock_select_fails env pid = false /\
               stock_update_fails env pid = false) ->
  products (fst (for_of l (updateStock env) st))
  = decrement_all l (products st).
Proof.
  intros Hnd Hquiet. revert st Hnd.
  induction l as [|item rest IH]; intros st Hnd; [reflexivity|].
  cbn [for_of decrement_all fold_left]. unfold bind.
  destruct (updateStock_run env item st) as (st1 & E1 & S1).
  pose proof (updateStock_decrements env item st Hnd
                (proj1 (Hquiet _)) (proj2 (Hquiet _))) as D.
  rewrite E1 in D |- *. cbn [fst] in D. rewrite <- D.
  apply IH. destruct S1 as (Hids & _). now rewrite Hids.
Qed.

Lemma after_stock_tables user s env st :
  sales (after_stock user s env st) = sales st ++ [the_sale user s env] /\
  sale_items (after_stock user s env st)
  = sale_items st ++ saleItems (new_sale_id env) (cart s) /\
  Store.installments (after_stock user s env st)
  = Store.installments st ++ new_installments s env.
Proof.
  destruct (after_stock_same user s env st) as (_ & A & B & C & _).
  rewrite A, B, C.
  unfold after_installments, after_items, after_sale, new_installments.
  destruct (paymentType s); cbn; repeat split.
  now rewrite app_nil_r.
Qed.

(** C7, as the code has it: when the checks pass and the sale is inserted,
    a failure of the insert of the line items, of the insert of the
    installments or of the receipt ends the checkout with the alert
    "Erro ao processar venda: " followed by the message of the failure,
    which names no stage, and the store keeps what the steps before wrote:
    the sale row; the sale row and the line items; the sale row, the line
    items, the installments and the stock of every product of the cart
    lowered by the quantity sold. *)
Theorem handleCheckout_keeps_partial_writes :
  forall (user : string) (s : State) (env : Env) (st : Store.t),
    valid s ->
    sale_error env = None ->
    let out := handleCheckout user s env st in
    (forall e,
        items_error env = Some e ->
        alert out = ("Erro ao processar venda: " ++ e)%string /\
        store out = insert_sale (the_sale user s env) st) /\
    (forall e,
        items_error env = None ->
        paymentType s = installment ->
        installments_error env = Some e ->
        alert out = ("Erro ao processar venda: " ++ e)%string /\
        store out = insert_sale_items (saleItems (new_sale_id env) (cart s))
                      (insert_sale (the_sale user s env) st)) /\
    (forall e,
        items_error env = None ->
        (paymentType s = installment -> installments_error env = None) ->
        receipt_error env = Some e ->
        alert out = ("Erro ao processar venda: " ++ e)%string /\
        sales (store out) = sales st ++ [the_sale user s env] /\
        sale_items (store out)
        = sale_items st ++ saleItems (new_sale_id env) (cart s) /\
        Store.installments (store out)
        = Store.installments st ++ new_installments s env /\
        cash_transactions (store out) = cash_transactions st /\
        (NoDup (map id (products st)) ->
         (forall pid, stock_select_fails env pid = false /\
                      stock_update_fails env pid = false) ->
         products (store out) = decrement_all (cart s) (products st))).
Proof.
  intros user s env st Hv Hs out. subst out.
  rewrite (handleCheckout_valid user s env st Hv), checkoutBody_run, Hs.
  split; [|split].
  - intros e Hi. rewrite Hi. cbn. split; reflexivity.
  - intros e Hi Hp Hn. rewrite Hi, Hp, Hn. cbn. split; reflexivity.
  - intros e Hi Hn Hr. rewrite Hi.
    assert (E : match paymentType s, installments_error env with
                | installment, Some e0 =>
                    (after_items user s env st, @Throw unit e0)
                | _, _ =>
                    match receipt_error env with
                    | Some e0 => (after_stock user s env st, Throw e0)
                    | None => (after_ledger user s env st, Ok tt)
                    end
                end = (after_stock user s env st, Throw e)).
    { rewrite Hr. destruct (paymentType s); [reflexivity|].
      now rewrite (Hn eq_refl). }
    rewrite E. cbn [alert store].
    destruct (after_stock_tables user s env st) as (A & B & C).
    destruct (after_stock_frame user s env st) as (_ & T).
    repeat split; try assumption.
    intros Hnd Hquiet. unfold after_stock.
    rewrite stock_loop_decrements; try assumption.
    + now destruct (after_installments_frame user s env st) as (-> & _).
    + now destruct (after_installments_frame user s env st) as (-> & _).
Qed.

(** C7 on the installment sale with the receipt failing: the alert shows
    the message, and the sale and the lowered stock stay. *)
Lemma receipt_failure_example :
  alert (handleCheckout "op" installment_page receipt_fails_env
                        two_product_store)
  = "Erro ao processar venda: Failed to save" /\
  map stock_quantity
      (products (store (handleCheckout "op" installment_page receipt_fails_env
                                       two_product_store)))
  = [6; 2] /\
  List.length
    (sales (store (handleCheckout "op" installment_page receipt_fails_env
                                  two_product_store))) = 1%nat.
Proof.
  destruct (handleCheckout_keeps_partial_writes
              "op" installment_page receipt_fails_env two_product_store
              valid_installment_page eq_refl) as (_ & _ & H).
  destruct (H "Failed to save" eq_refl (fun _ => eq_refl) eq_refl)
    as (Hal & Hsales & _ & _ & _ & Hstock).
  split; [exact Hal|]. split.
  - rewrite Hstock; [reflexivity| |intros pid; split; reflexivity].
    repeat constructor; cbn; intuition discriminate.
  - rewrite Hsales. reflexivity.
Defined.

(** C7, against the claim as stated: the alert of a failed checkout does
    not tell the stage.  The checkout that fails at the line items (only
    the sale row written) and the checkout that fails at the installments
    (sale row and line items written) show the caller one and the same
    alert, the text of the store's error behind a fixed prefix. *)
Lemma checkout_alert_names_no_stage :
  items_error items_fail_env = Some "Failed to fetch" /\
  installments_error items_fail_env = None /\
  items_error installments_fail_env = None /\
  installments_error installments_fail_env = Some "Failed to fetch" /\
  sale_items (store (handleCheckout "op" installment_page items_fail_env
                                    two_product_store)) = [] /\
  List.length
    (sale_items (store (handleCheckout "op" installment_page
                                       installments_fail_env
                                       two_product_store))) = 2%nat /\
  alert (handleCheckout "op" installment_page items_fail_env
                        two_product_store)
  = alert (handleCheckout "op" installment_page installments_fail_env
                          two_product_store) /\
  alert (handleCheckout "op" installment_page items_fail_env
                        two_product_store)
  = "Erro ao processar venda: Failed to fetch".
Proof. repeat split. Qed.

(** The failures the source does not read: with every stock update refused
    by the store, the checkout still alerts the success, the sale is
    recorded and the stock is as before. *)
Lemma checkout_ignores_stock_failure :
  alert (handleCheckout "op" overpaid_page stock_fails_env small_store)
  = "Venda realizada com sucesso!" /\
  products (store (handleCheckout "op" overpaid_page stock_fails_env
                                  small_store))
  = products small_store /\
  List.length
    (sales (store (handleCheckout "op" overpaid_page stock_fails_env
                                  small_store))) = 1%nat.
Proof. repeat split. Qed.

(** C1, at the failing input: the cart holds 5 units, each quantity within
    the stock the cart line remembers, the store has 2 left, and the
    checkout ends with the alert of success and a stock of -3. *)
Lemma checkout_writes_negative_stock :
  Forall in_range (cart stale_page) /\
  alert (handleCheckout "op" stale_page quiet_env sold_meanwhile_store)
  = "Venda realizada com sucesso!" /\
  map stock_quantity
      (products (store (handleCheckout "op" stale_page quiet_env
                                       sold_meanwhile_store)))
  = [-3].
Proof.
  split; [|split; reflexivity].
  repeat constructor; cbn; lia.
Qed.

End CheckoutFacts.

(** ** Stock adjustments and purchases *)

Section StockFacts.
Import Store.

Lemma update_stock_nonneg pid q st :
  0 <= q -> stock_nonneg (products st) ->
  stock_nonneg (products (update_stock pid q st)).
Proof.
  unfold stock_nonneg. intros Hq H. cbn. rewrite Forall_map.
  apply (Forall_impl _ (P := fun p => 0 <= stock_quantity p)); [|exact H].
  intros p Hp. now destruct (String.eqb (id p) pid).
Qed.

(** The manual adjustment refuses a result below zero, whatever the
    quantity typed. *)
Lemma stockModal_keeps_stock_nonneg product quantity type error st :
  stock_nonneg (products st) ->
  stock_nonneg
    (products (fst (StockModal.handleSubmit product quantity type error st))).
Proof.
  intros H. unfold StockModal.handleSubmit.
  set (q := match type with
            | StockModal.add => stock_quantity product + quantity
            | StockModal.remove => stock_quantity product - quantity
            end).
  destruct (Z.ltb_spec q 0) as [Hneg|Hpos].
  - exact H.
  - unfold bind, write. destruct error; cbn; [exact H|].
    now apply update_stock_nonneg.
Qed.

(** A purchase of a quantity that is not negative adds to a stock that is
    not negative. *)
Lemma purchase_keeps_stock_nonneg listed newPurchase env st :
  0 <= Stock.quantity newPurchase ->
  stock_nonneg listed ->
  stock_nonneg (products st) ->
  stock_nonneg
    (products (fst (Stock.handleSubmit listed newPurchase env st))).
Proof.
  intros Hq Hl H. unfold Stock.handleSubmit, bind, write, ret, throw.
  destruct (Stock.has_file newPurchase), (Stock.upload_error env);
    try exact H;
    (destruct (Stock.insert_error env); [exact H|]);
    (destruct (js_find _ listed) as [p|] eqn:F; [|exact H]);
    (destruct (Stock.update_error env); [exact H|]);
    cbn [fst];
    (apply update_stock_nonneg; [|exact H]);
    apply find_some in F; destruct F as (Hin & _);
    unfold stock_nonneg in Hl; rewrite Forall_forall in Hl;
    specialize (Hl p Hin); cbn beta in Hl; lia.
Qed.

End StockFacts.

(** ** The installment tracker *)

Section GroupingFacts.
Import Store Installments Scenario.

Lemma lookup_update k key f (l : Groups) :
  lookup k (update key f l)
  = if String.eqb k key then option_map f (lookup key l) else lookup k l.
Proof.
  induction l as [|[k0 g0] rest IH]; cbn.
  - now destruct (String.eqb k key).
  - destruct (String.eqb_spec k0 key) as [E0|N0]; cbn.
    + subst k0. destruct (String.eqb_spec key k) as [E|N].
      * subst k. now rewrite String.eqb_refl.
      * destruct (String.eqb_spec k key) as [E'|_]; [congruence|reflexivity].
    + destruct (String.eqb_spec k0 k) as [E|N].
      * subst k0. destruct (String.eqb_spec k key) as [E'|_];
          [congruence|reflexivity].
      * exact IH.
Qed.

Lemma lookup_app_new k key g (l : Groups) :
  lookup k (l ++ [(key, g)])
  = match lookup k l with
    | Some x => Some x
    | None => if String.eqb key k then Some g else None
    end.
Proof.
  induction l as [|[k0 g0] rest IH]; cbn; [reflexivity|].
  now destruct (String.eqb k0 k).
Qed.

Lemma update_keys key f (l : Groups) :
  map fst (update key f l) = map fst l.
Proof.
  induction l as [|[k0 g0] rest IH]; cbn; [reflexivity|].
  destruct (String.eqb k0 key); cbn; congruence.
Qed.

Lemma lookup_None_keys k (l : Groups) :
  lookup k l = None <-> ~ In k (map fst l).
Proof.
  induction l as [|[k0 g0] rest IH]; cbn; [tauto|].
  destruct (String.eqb_spec k0 k) as [E|N].
  - split; [discriminate | intros H; exfalso; apply H; now left].
  - rewrite IH. tauto.
Qed.

Lemma lookup_In k g (l : Groups) :
  NoDup (map fst l) -> In (k, g) l -> lookup k l = Some g.
Proof.
  induction l as [|[k0 g0] rest IH]; cbn; intros Hnd Hin; [destruct Hin|].
  inversion Hnd as [|? ? Hnotin Hnd']; subst.
  destruct Hin as [E|Hin].
  - injection E as -> ->. now rewrite String.eqb_refl.
  - destruct (String.eqb_spec k0 k) as [E|_]; [|now apply IH].
    exfalso. apply Hnotin. subst k0.
    change k with (fst (k, g)). now apply in_map.
Qed.

Lemma lookup_Some_In k g (l : Groups) :
  lookup k l = Some g -> In (k, g) l.
Proof.
  induction l as [|[k0 g0] rest IH]; cbn; [discriminate|].
  destruct (String.eqb_spec k0 k) as [E|_].
  - intros [= ->]. subst. now left.
  - intros H. right. now apply IH.
Qed.

Lemma sumOf_snoc s (l : list Installment) inst :
  sumOf s (l ++ [inst])
  = if status_eqb (status inst) s then (sumOf s l + amount inst)%Q
    else sumOf s l.
Proof. unfold sumOf. now rewrite fold_left_app. Qed.

Variable toLowerCase : string -> string.
Variable localeCompare : string -> string -> Z.
Variable searchTerm : string.
Variable statusFilter : StatusFilter.
Variable viewMode : ViewMode.
Variable now : Z.

Local Abbreviation matches := (matches toLowerCase searchTerm statusFilter viewMode now).
Local Abbreviation addInstallment :=
  (addInstallment toLowerCase searchTerm statusFilter viewMode now).
Local Abbreviation groupsOf :=
  (groupsOf toLowerCase searchTerm statusFilter viewMode now).
Local Abbreviation groupInstallments :=
  (groupInstallments toLowerCase localeCompare searchTerm statusFilter
                     viewMode now).
Local Abbreviation shown_for :=
  (shown_for toLowerCase searchTerm statusFilter viewMode now).
Local Abbreviation group_ok :=
  (group_ok toLowerCase searchTerm statusFilter viewMode now).
Local Abbreviation groups_ok :=
  (groups_ok toLowerCase searchTerm statusFilter viewMode now).

Lemma shown_for_snoc_other k done inst :
  matches inst && String.eqb (client_name inst) k = false ->
  shown_for k (done ++ [inst]) = shown_for k done.
Proof.
  intros H. unfold Installments.shown_for. rewrite filter_app. cbn. rewrite H.
  apply app_nil_r.
Qed.

Lemma shown_for_snoc_same done inst :
  matches inst = true ->
  shown_for (client_name inst) (done ++ [inst])
  = shown_for (client_name inst) done ++ [inst].
Proof.
  intros H. unfold Installments.shown_for. rewrite filter_app. cbn.
  now rewrite H, String.eqb_refl.
Qed.

Lemma shown_for_nil k done :
  (forall i, In i done -> matches i = true -> client_name i <> k) ->
  shown_for k done = [].
Proof.
  intros H. unfold Installments.shown_for. induction done as [|i rest IH]; [reflexivity|].
  cbn. destruct (matches i) eqn:M; cbn.
  - destruct (String.eqb_spec (client_name i) k) as [E|_].
    + exfalso. exact (H i (or_introl eq_refl) M E).
    + apply IH. intros j Hj. apply H. now right.
  - apply IH. intros j Hj. apply H. now right.
Qed.

Lemma record_ok done inst g :
  matches inst = true ->
  group_ok done (client_name inst) g ->
  group_ok (done ++ [inst]) (client_name inst) (record inst g).
Proof.
  intros M (Hid & Hname & Hinst & Hp & Ho).
  unfold Installments.group_ok, record.
  rewrite (shown_for_snoc_same done inst M), <- Hinst.
  destruct (status inst) eqn:S;
    cbn [clientId clientName installments totalPending totalOverdue
         addPending addOverdue push];
    rewrite !sumOf_snoc, S; cbn [status_eqb];
    repeat split; congruence.
Qed.

(** The callback on an installment that is shown, under a plain name. *)
Lemma addInstallment_shown groups inst :
  matches inst = true ->
  inherited (client_name inst) = false ->
  exists groups',
    addInstallment groups inst = Some groups' /\
    map fst groups'
    = match lookup (client_name inst) groups with
      | Some _ => map fst groups
      | None => map fst groups ++ [client_name inst]
      end /\
    forall k,
      lookup k groups'
      = if String.eqb k (client_name inst)
        then Some (record inst
                     match lookup (client_name inst) groups with
                     | Some g => g
                     | None => {| clientId := client_name inst;
                                  clientName := client_name inst;
                                  installments := [];
                                  totalPending := 0%Q;
                                  totalOverdue := 0%Q |}
                     end)
        else lookup k groups.
Proof.
  intros M Hplain. unfold Installments.addInstallment. rewrite M.
  set (key := client_name inst) in *.
  set (fresh := {| clientId := key; clientName := key; installments := [];
                   totalPending := 0%Q; totalOverdue := 0%Q |}).
  set (groups1 := match get key groups with
                  | Undefined => groups ++ [(key, fresh)]
                  | _ => groups
                  end).
  set (g0 := match lookup key groups with Some g => g | None => fresh end).
  assert (H1 : forall k', lookup k' groups1
                          = if String.eqb k' key then Some g0
                            else lookup k' groups).
  { intros k'. subst groups1 g0. unfold get. rewrite Hplain.
    destruct (lookup key groups) as [g|] eqn:L.
    - destruct (String.eqb_spec k' key) as [->|_]; [exact L|reflexivity].
    - rewrite lookup_app_new.
      destruct (String.eqb_spec k' key) as [->|N].
      + now rewrite L, String.eqb_refl.
      + destruct (lookup k' groups); [reflexivity|].
        destruct (String.eqb_spec key k') as [E|_]; [congruence|reflexivity].
  }
  assert (K1 : map fst groups1
               = match lookup key groups with
                 | Some _ => map fst groups
                 | None => map fst groups ++ [key]
                 end).
  { subst groups1. unfold get. rewrite Hplain.
    destruct (lookup key groups); [reflexivity | now rewrite map_app]. }
  assert (G1 : get key groups1 = Stored g0).
  { unfold get. now rewrite H1, String.eqb_refl. }
  rewrite G1. eexists. split; [reflexivity|]. split.
  - destruct (status inst); rewrite !update_keys; exact K1.
  - intros k. unfold record.
    destruct (status inst); rewrite ?lookup_update;
      destruct (String.eqb_spec k key) as [->|N];
      rewrite ?lookup_update, ?H1, ?String.eqb_refl; try reflexivity;
      destruct (String.eqb_spec k key); try congruence; reflexivity.
Qed.

Lemma addInstallment_hidden groups inst :
  matches inst = false -> addInstallment groups inst = Some groups.
Proof. intros M. unfold Installments.addInstallment. now rewrite M. Qed.

Lemma groups_ok_step done groups inst :
  groups_ok done groups ->
  (matches inst = true -> inherited (client_name inst) = false) ->
  exists groups',
    addInstallment groups inst = Some groups' /\
    groups_ok (done ++ [inst]) groups'.
Proof.
  intros (Hnd & Hgroups & Hall) Hplain.
  destruct (matches inst) eqn:M.
  - (* the installment is shown *)
    destruct (addInstallment_shown groups inst M (Hplain eq_refl))
      as (groups' & E & Hkeys & Hlook).
    exists groups'. split; [exact E|].
    assert (Hold : match lookup (client_name inst) groups with
                   | Some g => group_ok done (client_name inst) g
                   | None => shown_for (client_name inst) done = []
                   end).
    { destruct (lookup (client_name inst) groups) as [g|] eqn:L.
      - now apply Hgroups.
      - apply shown_for_nil. intros i Hi Mi Ei.
        apply (Hall i Hi Mi). now rewrite Ei. }
    split; [|split].
    + rewrite Hkeys.
      destruct (lookup (client_name inst) groups) eqn:L; [exact Hnd|].
      apply lookup_None_keys in L.
      apply NoDup_app; [exact Hnd | repeat constructor; intros [] |].
      intros k Hk [<-|[]]. contradiction.
    + intros k g. rewrite Hlook.
      destruct (String.eqb_spec k (client_name inst)) as [->|N].
      * intros [= <-]. apply record_ok; [exact M|].
        destruct (lookup (client_name inst) groups) as [g0|];
          [exact Hold|].
        unfold Installments.group_ok. cbn. rewrite Hold. repeat split.
      * intros L. destruct (Hgroups k g L) as (A & B & C & D & F).
        unfold Installments.group_ok. rewrite shown_for_snoc_other.
        -- repeat split; assumption.
        -- destruct (String.eqb_spec (client_name inst) k) as [E'|_];
             [congruence | apply andb_false_r].
    + intros i Hi Mi. rewrite Hlook.
      destruct (String.eqb_spec (client_name i) (client_name inst));
        [discriminate|].
      apply in_app_or in Hi. destruct Hi as [Hi|[<-|[]]];
        [now apply Hall | congruence].
  - (* the installment is filtered out *)
    exists groups. split; [now apply addInstallment_hidden|].
    split; [exact Hnd|]. split.
    + intros k g L. destruct (Hgroups k g L) as (A & B & C & D & F).
      unfold Installments.group_ok.
      rewrite shown_for_snoc_other by now rewrite M.
      repeat split; assumption.
    + intros i Hi Mi. apply in_app_or in Hi.
      destruct Hi as [Hi|[<-|[]]]; [now apply Hall | congruence].
Qed.

Lemma groups_ok_fold (l done : list Installment) groups :
  groups_ok done groups ->
  plain_names toLowerCase searchTerm statusFilter viewMode now l ->
  exists groups',
    fold_left (fun acc inst =>
                 match acc with
                 | Some groups => addInstallment groups inst
                 | None => None
                 end) l (Some groups) = Some groups' /\
    groups_ok (done ++ l) groups'.
Proof.
  revert done groups. induction l as [|inst rest IH];
    intros done groups H Hplain.
  - exists groups. split; [reflexivity | now rewrite app_nil_r].
  - cbn [fold_left].
    destruct (groups_ok_step done groups inst H) as (groups1 & E & H1).
    { apply Hplain. now left. }
    rewrite E.
    replace (done ++ inst :: rest) with ((done ++ [inst]) ++ rest)
      by now rewrite <- app_assoc.
    apply IH; [exact H1|]. intros i Hi. apply Hplain. now right.
Qed.

Lemma groupsOf_ok (l : list Installment) :
  plain_names toLowerCase searchTerm statusFilter viewMode now l ->
  exists groups, groupsOf l = Some groups /\ groups_ok l groups.
Proof.
  intros Hplain. apply (groups_ok_fold l [] []); [|exact Hplain].
  split; [constructor|]. split; [discriminate | intros i []].
Qed.

(** The callback throws at a shown installment of a client called like a
    property of [Object.prototype], unless a group is stored under the
    name (which never happens from an empty object). *)
Lemma addInstallment_throws groups inst :
  matches inst = true ->
  inherited (client_name inst) = true ->
  lookup (client_name inst) groups = None ->
  addInstallment groups inst = None.
Proof.
  intros M Hin L. unfold Installments.addInstallment. rewrite M.
  assert (G : get (client_name inst) groups = Inherited)
    by (unfold get; now rewrite L, Hin).
  now rewrite G, G.
Qed.

Lemma insert_sorted_In g x (l : list ClientGroup) :
  In x (insert_sorted localeCompare g l) <-> x = g \/ In x l.
Proof.
  induction l as [|h rest IH]; cbn; [intuition congruence|].
  destruct (0 <? localeCompare (clientName g) (clientName h)); cbn;
    [rewrite IH|]; intuition congruence.
Qed.

Lemma sort_groups_In x (l : list ClientGroup) :
  In x (sort_groups localeCompare l) <-> In x l.
Proof.
  unfold sort_groups. induction l as [|g rest IH]; cbn; [tauto|].
  rewrite insert_sorted_In, IH. intuition congruence.
Qed.

(** C10: the key of a group is the name of the client.  When no client
    shown is called like a property of [Object.prototype] (where the
    callback throws), two installments that pass the filters and belong to
    two different clients of the same name land in one group, the only
    group shown under that name; its installments are all the installments
    shown whose client has that name, whoever the client is, and its
    pending and overdue totals are the sums over those installments. *)
Theorem groupInstallments_merges_namesakes :
  forall (l : list Installment) (a b : Installment),
    plain_names toLowerCase searchTerm statusFilter viewMode now l ->
    In a l -> In b l ->
    client_id a <> client_id b ->
    client_name a = client_name b ->
    matches a = true -> matches b = true ->
    exists shown g,
      groupInstallments l = Some shown /\
      In g shown /\
      (forall g', In g' shown -> clientName g' = client_name a -> g' = g) /\
      In a (installments g) /\ In b (installments g) /\
      installments g
      = filter (fun i => matches i && String.eqb (client_name i)
                                                 (client_name a)) l /\
      totalPending g = sumOf pending (installments g) /\
      totalOverdue g = sumOf overdue (installments g).
Proof.
  intros l a b Hplain Ha Hb _ Hname Ma Mb.
  destruct (groupsOf_ok l Hplain) as (groups & E & Hnd & Hgroups & Hall).
  destruct (lookup (client_name a) groups) as [g|] eqn:L;
    [|now destruct (Hall a Ha Ma)].
  destruct (Hgroups _ _ L) as (Hid & Hn & Hinst & Hp & Ho).
  exists (sort_groups localeCompare (map snd groups)), g.
  split; [unfold Installments.groupInstallments; now rewrite E|].
  split.
  { apply sort_groups_In, in_map_iff. exists (client_name a, g).
    split; [reflexivity | now apply lookup_Some_In]. }
  split; [|split; [|split; [|split; [exact Hinst | split; assumption]]]].
  - intros g' Hin' Hn'.
    apply sort_groups_In, in_map_iff in Hin'.
    destruct Hin' as ([k g''] & Eg & Hin'). cbn in Eg. subst g''.
    apply (lookup_In _ _ _ Hnd) in Hin'.
    destruct (Hgroups _ _ Hin') as (_ & Hk & _).
    assert (k = client_name a) by congruence. subst k. congruence.
  - rewrite Hinst. unfold Installments.shown_for. apply filter_In.
    split; [exact Ha|]. now rewrite Ma, String.eqb_refl.
  - rewrite Hinst. unfold Installments.shown_for. apply filter_In.
    split; [exact Hb|]. now rewrite Mb, <- Hname, String.eqb_refl.
Qed.

End GroupingFacts.

(** C10 on two clients called Ana: the three installments of both are in
    the one group "Ana", whose totals add up the pending 10.00 of the
    first client and the pending 7.00 and overdue 5.00 of the second. *)
Lemma namesakes_example :
  exists shown g,
    Installments.groupInstallments
      (fun s => s) Scenario.byte_compare "" Installments.all_statuses
      Installments.all_dates 100 Scenario.fetched = Some shown /\
    In g shown /\
    Installments.installments g
    = [Scenario.ana2_overdue; Scenario.ana1_pending; Scenario.ana2_pending] /\
    Installments.totalPending g = 17 # 1 /\
    Installments.totalOverdue g = 5 # 1.
Proof.
  destruct (groupInstallments_merges_namesakes
              (fun s => s) Scenario.byte_compare "" Installments.all_statuses
              Installments.all_dates 100 Scenario.fetched
              Scenario.ana1_pending Scenario.ana2_pending)
    as (shown & g & E & Hin & _ & _ & _ & Hinst & Hp & Ho);
    try reflexivity.
  - intros i [<-|[<-|[<-|[<-|[]]]]] _; reflexivity.
  - right. now left.
  - right. right. right. now left.
  - discriminate.
  - exists shown, g. split; [exact E|]. split; [exact Hin|].
    rewrite Hp, Ho, Hinst. repeat split.
Defined.


(** * Further properties *)

(** ** The cart *)

Section MoreCartFacts.
Import Store Sales SalesView Scenario.

Lemma total_from (cart : list CartItem) (acc : Q) :
  (fold_left (fun sum item =>
                sum + price (product item) * inject_Z (quantity item))
             cart acc
   == acc + line_sum cart)%Q.
Proof.
  revert acc. induction cart as [|item rest IH]; intros acc;
    cbn [fold_left line_sum].
  - ring.
  - rewrite IH. ring.
Qed.

Lemma line_sum_app (c1 c2 : list CartItem) :
  (line_sum (c1 ++ c2) == line_sum c1 + line_sum c2)%Q.
Proof.
  induction c1 as [|item rest IH]; cbn [app line_sum]; [ring|].
  rewrite IH. ring.
Qed.

Lemma line_sum_perm (c c' : list CartItem) :
  Permutation c c' -> (line_sum c == line_sum c')%Q.
Proof.
  induction 1 as [|x l l' _ IH|x y l|l l' l'' _ IH1 _ IH2]; cbn [line_sum].
  - reflexivity.
  - now rewrite IH.
  - ring.
  - now rewrite IH1.
Qed.

Lemma total_line_sum (c : list CartItem) : (total c == line_sum c)%Q.
Proof. unfold total. rewrite total_from. ring. Qed.

(** X1: the total of the page is the sum of price times quantity over
    the lines of the cart; it adds up over carts put end to end and does
    not depend on the order of the lines. *)
Theorem total_is_line_sum :
  forall c1 c2 : list CartItem,
    (total c1 == line_sum c1)%Q /\
    (total (c1 ++ c2) == total c1 + total c2)%Q /\
    (Permutation c1 c2 -> (total c1 == total c2)%Q).
Proof.
  intros c1 c2.
  pose proof total_line_sum as T.
  split; [apply T|]. split.
  - rewrite !T. apply line_sum_app.
  - intros P. rewrite !T. now apply line_sum_perm.
Qed.

Lemma remove_not_in_cart p (current : list CartItem) :
  not_in_cart p current -> removeFromCart (id p) current = current.
Proof.
  unfold removeFromCart. induction current as [|item rest IH]; intros Hnot;
    [reflexivity|].
  cbn. destruct (String.eqb_spec (id (product item)) (id p)) as [E|_].
  - exfalso. exact (Hnot item (or_introl eq_refl) E).
  - cbn. f_equal. apply IH. intros i Hi. apply Hnot. now right.
Qed.

(** X2: [removeFromCart] drops every line of the product and nothing
    else: the lines left are the lines of the other products, and they
    stay in their order (around any line of the cart, what is left of the
    lines before it comes first, then the line itself unless it is of the
    product, then what is left of the lines after it); removing again, or
    removing a product that is not in the cart, changes nothing. *)
Theorem removeFromCart_drops_the_product :
  forall (productId : string) (current : list CartItem),
    (forall item, In item (removeFromCart productId current) <->
                  In item current /\ id (product item) <> productId) /\
    (forall before item after,
        current = before ++ item :: after ->
        removeFromCart productId current
        = removeFromCart productId before
            ++ (if String.eqb (id (product item)) productId
                then [] else [item])
            ++ removeFromCart productId after) /\
    removeFromCart productId (removeFromCart productId current)
    = removeFromCart productId current /\
    ((forall item, In item current -> id (product item) <> productId) ->
     removeFromCart productId current = current).
Proof.
  intros productId current. unfold removeFromCart. split; [|split; [|split]].
  - intros item. rewrite filter_In, negb_true_iff.
    destruct (String.eqb_spec (id (product item)) productId);
      intuition congruence.
  - intros before item after ->. rewrite filter_app. cbn [filter].
    now destruct (String.eqb (id (product item)) productId).
  - induction current as [|item rest IH]; [reflexivity|].
    cbn. destruct (String.eqb (id (product item)) productId) eqn:E; cbn;
      [exact IH|].
    rewrite E. cbn. now f_equal.
  - induction current as [|item rest IH]; intros Hnot; [reflexivity|].
    cbn. destruct (String.eqb_spec (id (product item)) productId) as [E|_].
    + exfalso. exact (Hnot item (or_introl eq_refl) E).
    + cbn. f_equal. apply IH. intros i Hi. apply Hnot. now right.
Qed.

(** X3: adding a product that is not in the cart and removing it again
    gives the cart back. *)
Theorem add_then_remove :
  forall (p : Product) (current : list CartItem),
    not_in_cart p current ->
    removeFromCart (id p) (addToCart p current) = current.
Proof.
  intros p current Hnot. unfold addToCart.
  rewrite (find_not_in_cart p current Hnot).
  unfold removeFromCart. rewrite filter_app. cbn.
  rewrite String.eqb_refl. cbn. rewrite app_nil_r.
  now apply remove_not_in_cart.
Qed.

(** X3 on a cart holding another product. *)
Lemma add_then_remove_example :
  removeFromCart "p1"
    (addToCart (caderno 4)
       [ {| product := mkProduct "pB" "Caneta" "0002" (5 # 1) 3;
            quantity := 2 |} ])
  = [ {| product := mkProduct "pB" "Caneta" "0002" (5 # 1) 3;
         quantity := 2 |} ].
Proof.
  apply (add_then_remove (caderno 4)).
  intros item [<-|[]]. discriminate.
Defined.

Lemma NoDup_map_inj {A B : Type} (f : A -> B) (l : list A) (a b : A) :
  NoDup (map f l) -> In a l -> In b l -> f a = f b -> a = b.
Proof.
  induction l as [|x rest IH]; intros Hnd Ha Hb E; [destruct Ha|].
  inversion Hnd as [|? ? Hnotin Hnd']; subst.
  destruct Ha as [<-|Ha], Hb as [<-|Hb].
  - reflexivity.
  - exfalso. apply Hnotin. rewrite E. now apply in_map.
  - exfalso. apply Hnotin. rewrite <- E. now apply in_map.
  - now apply IH.
Qed.

Lemma NoDup_map_filter {A B : Type} (f : A -> B) (g : A -> bool)
      (l : list A) :
  NoDup (map f l) -> NoDup (map f (filter g l)).
Proof.
  induction l as [|x rest IH]; intros Hnd; [constructor|].
  inversion Hnd as [|? ? Hnotin Hnd']; subst. cbn.
  destruct (g x); [|now apply IH].
  cbn. constructor; [|now apply IH].
  intros Hin. apply Hnotin. apply in_map_iff in Hin.
  destruct Hin as (y & E & Hy). apply filter_In in Hy.
  apply in_map_iff. exists y. tauto.
Qed.

Lemma updateLine_product productId delta item :
  product (updateLine productId delta item) = product item.
Proof.
  destruct (updateLine_step productId delta item) as [->|(_ & H & _)];
    [reflexivity | exact H].
Qed.

Lemma find_in_cart pid (c : list CartItem) existing :
  js_find (fun item => String.eqb (id (product item)) pid) c = Some existing ->
  In existing c /\ id (product existing) = pid.
Proof.
  unfold js_find. intros H. apply find_some in H.
  now rewrite String.eqb_eq in H.
Qed.

Lemma addToCart_ok catalog p c :
  catalog_ok catalog -> In p catalog -> cart_ok catalog c ->
  cart_ok catalog (addToCart p c).
Proof.
  intros (Hcat & Hpos) Hp (Hnd & Hall). unfold addToCart.
  rewrite Forall_forall in Hall, Hpos.
  destruct (js_find _ c) as [existing|] eqn:F.
  - destruct (find_in_cart _ _ _ F) as (Hex & Hid).
    destruct (Z.geb_spec (quantity existing) (stock_quantity p)) as [_|Hlt];
      [split; [exact Hnd | now apply Forall_forall]|].
    split.
    + rewrite map_map.
      erewrite map_ext; [exact Hnd|].
      intros item. now destruct (String.eqb (id (product item)) (id p)).
    + apply Forall_forall. intros item' Hin'.
      apply in_map_iff in Hin'. destruct Hin' as (item & <- & Hin).
      destruct (Hall item Hin) as (Hr & Hc).
      destruct (String.eqb_spec (id (product item)) (id p)) as [E|_];
        [|now split].
      assert (item = existing).
      { apply (NoDup_map_inj (fun i => id (product i)) c); try assumption.
        congruence. }
      subst item.
      assert (product existing = p)
        by (apply (NoDup_map_inj id catalog); assumption).
      unfold in_range in *. cbn. split; [|exact Hc].
      replace (stock_quantity (product existing)) with (stock_quantity p)
        by congruence.
      lia.
  - assert (Hnot : forall item, In item c -> id (product item) <> id p).
    { intros item Hin E.
      unfold js_find in F.
      apply (find_none _ _ F) in Hin. cbn in Hin.
      apply String.eqb_neq in Hin. contradiction. }
    split.
    + rewrite map_app. cbn.
      apply NoDup_app; [exact Hnd | repeat constructor; intros [] |].
      intros k Hk [<-|[]]. apply in_map_iff in Hk.
      destruct Hk as (item & E & Hin). exact (Hnot item Hin E).
    + apply Forall_app. split; [now apply Forall_forall|].
      constructor; [|constructor]. cbn. split; [|exact Hp].
      unfold in_range. cbn. specialize (Hpos p Hp). cbn in Hpos. lia.
Qed.

Lemma updateQuantity_ok catalog productId delta c :
  cart_ok catalog c -> cart_ok catalog (updateQuantity productId delta c).
Proof.
  intros (Hnd & Hall). unfold updateQuantity. split.
  - rewrite map_map. erewrite map_ext; [exact Hnd|].
    intros item. cbn. now rewrite updateLine_product.
  - rewrite Forall_map. apply (Forall_impl _ (P := fun item =>
      in_range item /\ In (product item) catalog)); [|exact Hall].
    intros item (Hr & Hc). split.
    + now apply updateLine_keeps_range.
    + now rewrite updateLine_product.
Qed.

Lemma removeFromCart_ok catalog productId c :
  cart_ok catalog c -> cart_ok catalog (removeFromCart productId c).
Proof.
  intros (Hnd & Hall). unfold removeFromCart. split.
  - now apply NoDup_map_filter.
  - rewrite Forall_forall in *. intros item Hin.
    apply filter_In in Hin. now apply Hall.
Qed.

(** X4: on a product list with unique identifiers and positive stock (what
    [fetchProducts] asks the store for), every cart the page can reach
    from the empty cart through [addToCart], [updateQuantity] and
    [removeFromCart] has one line per product, and every line holds a
    product of the list with a quantity between 1 and its stock. *)
Theorem reachable_cart_ok :
  forall (catalog : list Product) (c : list CartItem),
    catalog_ok catalog -> reachable catalog c -> cart_ok catalog c.
Proof.
  intros catalog c Hcat Hreach.
  induction Hreach as [|p c Hp _ IH|pid delta c _ IH|pid c _ IH].
  - split; constructor.
  - now apply addToCart_ok.
  - now apply updateQuantity_ok.
  - now apply removeFromCart_ok.
Qed.

(** X4 on the product grid clicked three times for a product with two
    units: the third click changes nothing. *)
Lemma reachable_cart_example :
  cart_ok [caderno 2]
          (addToCart (caderno 2)
             (addToCart (caderno 2) (addToCart (caderno 2) []))) /\
  map quantity
      (addToCart (caderno 2)
         (addToCart (caderno 2) (addToCart (caderno 2) []))) = [2].
Proof.
  split; [|reflexivity].
  apply (reachable_cart_ok [caderno 2]).
  - split.
    + constructor; [intros [] | constructor].
    + constructor; [cbn; lia | constructor].
  - repeat (apply reach_add; [now left|]). apply reach_empty.
Defined.

(** X5: a change of quantity within the range is applied, and the
    opposite change undoes it: in a cart whose lines are in range and
    where the quantity plus [delta] of each line of the product is in
    range, [updateQuantity] with [delta] adds [delta] to the lines of the
    product and keeps the others, and [updateQuantity] with [- delta] then
    gives the cart back; and a change by 0 never changes a cart, whatever
    its lines are. *)
Theorem updateQuantity_undo :
  forall (productId : string) (delta : Z) (current : list CartItem),
    (Forall (fun item =>
               in_range item /\
               (id (product item) = productId ->
                1 <= quantity item + delta <= stock_quantity (product item)))
            current ->
     updateQuantity productId delta current
     = map (fun item => if String.eqb (id (product item)) productId
                        then with_quantity item (quantity item + delta)
                        else item) current /\
     updateQuantity productId (- delta)
                    (updateQuantity productId delta current)
     = current) /\
    updateQuantity productId 0 current = current.
Proof.
  intros productId delta current. unfold updateQuantity. split.
  - intros Hall. rewrite Forall_forall in Hall. split.
    + apply map_ext_in. intros item Hin.
      destruct (Hall item Hin) as (Hr & Hd). unfold updateLine.
      destruct (String.eqb_spec (id (product item)) productId) as [E|N];
        [|reflexivity].
      specialize (Hd E). cbv zeta.
      destruct (Z.ltb_spec (quantity item + delta) 1); [lia|].
      destruct (Z.gtb_spec (quantity item + delta)
                           (stock_quantity (product item))); [lia|].
      reflexivity.
    + rewrite map_map. rewrite <- (map_id current) at 2.
      apply map_ext_in. intros item Hin.
      destruct (Hall item Hin) as (Hr & Hd).
      unfold updateLine at 2.
      destruct (String.eqb_spec (id (product item)) productId) as [E|N].
      * specialize (Hd E). cbv zeta.
        destruct (Z.ltb_spec (quantity item + delta) 1); [lia|].
        destruct (Z.gtb_spec (quantity item + delta)
                             (stock_quantity (product item))); [lia|].
        unfold updateLine, with_quantity. cbn. rewrite E, String.eqb_refl.
        unfold in_range in Hr.
        destruct (Z.ltb_spec (quantity item + delta + - delta) 1); [lia|].
        destruct (Z.gtb_spec (quantity item + delta + - delta)
                             (stock_quantity (product item))); [lia|].
        destruct item as [pr q]. cbn. f_equal. lia.
      * unfold updateLine.
        destruct (String.eqb_spec (id (product item)) productId);
          [contradiction | reflexivity].
  - rewrite <- (map_id current) at 2. apply map_ext. intros item.
    unfold updateLine, with_quantity.
    destruct (String.eqb (id (product item)) productId); [|reflexivity].
    cbv zeta.
    destruct (quantity item + 0 <? 1); [reflexivity|].
    destruct (quantity item + 0 >? stock_quantity (product item));
      [reflexivity|].
    destruct item as [pr q]. cbn. f_equal. lia.
Qed.

(** X5 on a line of quantity 2 out of 4, raised by one and lowered
    again. *)
Lemma updateQuantity_undo_example :
  updateQuantity "p1" 1 [ {| product := caderno 4; quantity := 2 |} ]
  = [ {| product := caderno 4; quantity := 3 |} ] /\
  updateQuantity "p1" (- 1)
    (updateQuantity "p1" 1 [ {| product := caderno 4; quantity := 2 |} ])
  = [ {| product := caderno 4; quantity := 2 |} ].
Proof.
  destruct (updateQuantity_undo
              "p1" 1 [ {| product := caderno 4; quantity := 2 |} ])
    as (Hin_range & _).
  destruct Hin_range as (Happlied & Hundone).
  - constructor; [|constructor]. unfold in_range. cbn. lia.
  - split; [exact Happlied | exact Hundone].
Defined.

End MoreCartFacts.

(** ** The checkout *)

Section MoreCheckoutFacts.
Import Store Sales SalesView Scenario.

Lemma change_zero_or_rest (s : State) :
  (Qmax 0 (amountPaid s - total (cart s)) + 
   (if Qltb (total (cart s)) (amountPaid s) then total (cart s)
    else amountPaid s) == amountPaid s)%Q.
Proof.
  destruct (Qltb (total (cart s)) (amountPaid s)) eqn:E.
  - apply Qltb_lt in E.
    rewrite Q.max_r; [ring|].
    apply Qlt_le_weak. unfold Qminus. rewrite <- Qlt_minus_iff. exact E.
  - assert (L : (amountPaid s <= total (cart s))%Q).
    { apply Qnot_lt_le. intros H. apply Qltb_lt in H. congruence. }
    rewrite Q.max_l; [ring|].
    apply Qle_minus_iff in L.
    apply Qopp_le_compat in L.
    assert (R : (- (total (cart s) + - amountPaid s)
                 == amountPaid s - total (cart s))%Q) by ring.
    rewrite R in L. exact L.
Qed.

(** X6: the change the page shows is never negative; when the payment is
    immediate and in money, the amount of the ledger entry and the change
    add up to the amount paid, whatever it is; for every other payment the
    change is 0. *)
Theorem change_and_entry_make_the_payment :
  forall s : State,
    (0 <= change s)%Q /\
    (paymentMethod s = "money" -> paymentType s = cash ->
     (ledgerAmount s + change s == amountPaid s)%Q) /\
    (paymentMethod s <> "money" \/ paymentType s = installment ->
     change s = 0%Q).
Proof.
  intros s. unfold change, ledgerAmount. split; [|split].
  - destruct (String.eqb (paymentMethod s) "money" && is_cash (paymentType s));
      [apply Q.le_max_l | apply Qle_refl].
  - intros -> ->. cbn. rewrite Qplus_comm. apply change_zero_or_rest.
  - intros [H|H].
    + destruct (String.eqb_spec (paymentMethod s) "money");
        [contradiction | reflexivity].
    + rewrite H. now rewrite andb_false_r.
Qed.

(** The store a checkout leaves, whatever happens: the store it found, or
    the store after one of its steps. *)
Lemma handleCheckout_stages user s env st :
  let st' := store (handleCheckout user s env st) in
  st' = st \/
  st' = after_sale user s env st \/
  (st' = after_items user s env st /\ paymentType s = installment) \/
  st' = after_stock user s env st \/
  st' = after_ledger user s env st.
Proof.
  cbv zeta. unfold handleCheckout.
  destruct (String.eqb (selectedClient s) ""); [now left|].
  destruct (List.length (cart s) =? 0)%nat; [now left|].
  destruct (is_cash (paymentType s) && String.eqb (paymentMethod s) "money"
            && Qltb (amountPaid s) (total (cart s))); [now left|].
  rewrite checkoutBody_run.
  destruct (sale_error env); [now left|].
  destruct (items_error env); [right; now left|].
  destruct (paymentType s) eqn:P, (installments_error env);
    try (right; right; left; now split);
    destruct (receipt_error env); cbn; tauto.
Qed.

Lemma extends_refl {A : Type} (l : list A) : extends l l.
Proof. exists []. now rewrite app_nil_r. Qed.

Lemma extends_app {A : Type} (l added : list A) : extends l (l ++ added).
Proof. now exists added. Qed.

Lemma after_ledger_tables user s env st :
  let st5 := after_ledger user s env st in
  let st4 := after_stock user s env st in
  products st5 = products st4 /\ sales st5 = sales st4 /\
  sale_items st5 = sale_items st4 /\
  Store.installments st5 = Store.installments st4 /\
  cash_registers st5 = cash_registers st4 /\
  purchases st5 = purchases st4 /\
  extends (cash_transactions st4) (cash_transactions st5) /\
  (paymentType s = installment ->
   cash_transactions st5 = cash_transactions st4).
Proof.
  cbv zeta. unfold after_ledger.
  destruct (paymentType s);
    [|repeat split; apply extends_refl].
  destruct (register_select_fails env);
    [repeat split; try discriminate; apply extends_refl|].
  destruct (select_open_register user (after_stock user s env st));
    [|repeat split; try discriminate; apply extends_refl].
  destruct (transaction_insert_fails env);
    [repeat split; try discriminate; apply extends_refl|].
  cbn. repeat split; try discriminate. apply extends_app.
Qed.

Lemma after_stock_all_tables user s env st :
  let st4 := after_stock user s env st in
  map id (products st4) = map id (products st) /\
  sales st4 = sales st ++ [the_sale user s env] /\
  sale_items st4 = sale_items st ++ saleItems (new_sale_id env) (cart s) /\
  Store.installments st4 = Store.installments st ++ new_installments s env /\
  cash_registers st4 = cash_registers st /\
  cash_transactions st4 = cash_transactions st /\
  purchases st4 = purchases st.
Proof.
  cbv zeta.
  destruct (after_stock_tables user s env st) as (A & B & C).
  destruct (after_stock_frame user s env st) as (R & T).
  destruct (after_stock_same user s env st) as (I & _ & _ & _ & _ & _ & P).
  repeat split; try assumption.
  - rewrite I. unfold after_installments, after_items, after_sale.
    now destruct (paymentType s).
  - rewrite P. unfold after_installments, after_items, after_sale.
    now destruct (paymentType s).
Qed.


(** X8: the two payment branches never mix, in any run: an immediate
    payment leaves the installments as they were, and a payment by
    installment leaves the cash transactions as they were. *)
Theorem handleCheckout_payment_branches :
  forall (user : string) (s : State) (env : Env) (st : Store.t),
    let st' := store (handleCheckout user s env st) in
    (paymentType s = cash ->
     Store.installments st' = Store.installments st) /\
    (paymentType s = installment ->
     cash_transactions st' = cash_transactions st).
Proof.
  intros user s env st.
  destruct (after_stock_all_tables user s env st)
    as (_ & _ & _ & N4 & _ & T4 & _).
  destruct (after_ledger_tables user s env st)
    as (_ & _ & _ & N5 & _ & _ & _ & T5).
  cbv zeta in *.
  destruct (handleCheckout_stages user s env st)
    as [E|[E|[(E & P)|[E|E]]]]; cbv zeta in E; rewrite E; clear E.
  - split; reflexivity.
  - split; reflexivity.
  - split; [congruence | reflexivity].
  - split; [|intros _; exact T4].
    intros C. rewrite N4. unfold new_installments. rewrite C.
    apply app_nil_r.
  - split.
    + intros C. rewrite N5, N4. unfold new_installments. rewrite C.
      apply app_nil_r.
    + intros I. now rewrite (T5 I).
Qed.

Lemma items_sum_saleItems saleId (c : list CartItem) :
  (items_sum (saleItems saleId c) == line_sum c)%Q.
Proof.
  induction c as [|item rest IH]; cbn [saleItems map items_sum line_sum];
    [reflexivity|].
  unfold saleItems in IH. rewrite IH. cbn. ring.
Qed.

(** X9: once the checks pass and the inserts of the sale and of its line
    items are accepted, the store holds one more sale and one line item
    per cart line, each carrying the identifier of the sale, the product,
    the quantity and the price of its line; and the total of the sale is
    the sum of quantity times unit price over those line items. *)
Theorem handleCheckout_sale_matches_items :
  forall (user : string) (s : State) (env : Env) (st : Store.t),
    valid s ->
    sale_error env = None ->
    items_error env = None ->
    exists (row : Sale) (rows : list SaleItem),
      sales (store (handleCheckout user s env st)) = sales st ++ [row] /\
      sale_items (store (handleCheckout user s env st))
      = sale_items st ++ rows /\
      sale_id row = new_sale_id env /\
      sale_client_id row = selectedClient s /\
      Forall2 (fun item r =>
                 item_sale_id r = sale_id row /\
                 item_product_id r = id (product item) /\
                 item_quantity r = quantity item /\
                 unit_price r = price (product item))
              (cart s) rows /\
      (total_amount row == items_sum rows)%Q.
Proof.
  intros user s env st Hv Hs Hi.
  exists (the_sale user s env), (saleItems (new_sale_id env) (cart s)).
  assert (Hstore : store (handleCheckout user s env st)
                   = after_items user s env st \/
                   store (handleCheckout user s env st)
                   = after_stock user s env st \/
                   store (handleCheckout user s env st)
                   = after_ledger user s env st).
  { rewrite (handleCheckout_valid user s env st Hv), checkoutBody_run, Hs, Hi.
    destruct (paymentType s), (installments_error env);
      try (left; reflexivity);
      destruct (receipt_error env); cbn; tauto. }
  destruct (after_stock_all_tables user s env st) as (_ & S4 & L4 & _).
  destruct (after_ledger_tables user s env st) as (_ & S5 & L5 & _).
  cbv zeta in *.
  assert (Htab : sales (store (handleCheckout user s env st))
                 = sales st ++ [the_sale user s env] /\
                 sale_items (store (handleCheckout user s env st))
                 = sale_items st ++ saleItems (new_sale_id env) (cart s)).
  { destruct Hstore as [E|[E|E]]; rewrite E.
    - split; reflexivity.
    - now split.
    - rewrite S5, L5. now split. }
  destruct Htab as (A & B).
  repeat split; try assumption.
  - clear. unfold saleItems. generalize (cart s) as c.
    induction c as [|item rest IH]; cbn; constructor;
      [repeat split | exact IH].
  - rewrite items_sum_saleItems. cbn. apply total_line_sum.
Qed.

(** X9 on the sale of 2 x 10.00 and 1 x 5.00: a sale of 25.00 with two
    line items. *)
Lemma sale_matches_items_example :
  exists (row : Sale) (rows : list SaleItem),
    sales (store (handleCheckout "op" installment_page quiet_env
                                 two_product_store)) = [row] /\
    List.length rows = 2%nat /\
    (total_amount row == 25 # 1)%Q /\
    (items_sum rows == 25 # 1)%Q.
Proof.
  destruct (handleCheckout_sale_matches_items
              "op" installment_page quiet_env two_product_store
              valid_installment_page eq_refl eq_refl)
    as (row & rows & Hs & Hi & _ & _ & _ & Hsum).
  exists row, rows. split; [exact Hs|].
  cbn in Hs, Hi. injection Hs as <-. subst rows.
  split; [reflexivity|]. split; reflexivity.
Defined.

Lemma with_stock_same (p : Product) (q : Z) :
  q = stock_quantity p -> with_stock p q = p.
Proof. intros ->. now destruct p. Qed.

Lemma decrement_all_sold (c : list CartItem) (ps : list Product) :
  decrement_all c ps
  = map (fun p => with_stock p (stock_quantity p - sold (id p) c)) ps.
Proof.
  revert ps. induction c as [|item rest IH]; intros ps.
  - cbn. rewrite <- (map_id ps) at 1. apply map_ext. intros p.
    symmetry. apply with_stock_same. lia.
  - unfold decrement_all in *. cbn [fold_left]. rewrite IH.
    unfold decrement. rewrite map_map. apply map_ext. intros p. cbn [sold].
    rewrite (String.eqb_sym (id (product item)) (id p)).
    destruct (String.eqb (id p) (id (product item))); cbn.
    + unfold with_stock. cbn. f_equal. lia.
    + f_equal; lia.
Qed.

Lemma stock_after_checkout (user : string) (s : State) (env : Env)
      (st : Store.t) :
  valid s ->
  sale_error env = None ->
  items_error env = None ->
  (paymentType s = installment -> installments_error env = None) ->
  NoDup (map id (products st)) ->
  (forall pid, stock_select_fails env pid = false /\
               stock_update_fails env pid = false) ->
  products (store (handleCheckout user s env st))
  = map (fun p => with_stock p (stock_quantity p - sold (id p) (cart s)))
        (products st).
Proof.
  intros Hv Hs Hi Hn Hnd Hquiet.
  assert (E : products (store (handleCheckout user s env st))
              = products (after_stock user s env st)).
  { rewrite (handleCheckout_valid user s env st Hv), checkoutBody_run, Hs, Hi.
    destruct (after_ledger_tables user s env st) as (I5 & _). cbv zeta in I5.
    destruct (paymentType s) eqn:P.
    - destruct (installments_error env), (receipt_error env); cbn; congruence.
    - rewrite (Hn eq_refl). destruct (receipt_error env); cbn; congruence. }
  rewrite E. unfold after_stock.
  destruct (after_installments_frame user s env st) as (Pr & _).
  rewrite stock_loop_decrements; rewrite ?Pr; try assumption.
  apply decrement_all_sold.
Qed.

(** X10: when the checks pass, the inserts before the stock step are
    accepted, the identifiers of the products are unique and no stock
    request fails, the checkout leaves every product with the stock it had
    minus the units of that product in the cart (and every other field as
    it was), whether or not the receipt fails afterwards; so the stock
    stays non-negative exactly when no product is sold beyond what the
    store holds. *)
Theorem handleCheckout_stock_after :
  forall (user : string) (s : State) (env : Env) (st : Store.t),
    valid s ->
    sale_error env = None ->
    items_error env = None ->
    (paymentType s = installment -> installments_error env = None) ->
    NoDup (map id (products st)) ->
    (forall pid, stock_select_fails env pid = false /\
                 stock_update_fails env pid = false) ->
    products (store (handleCheckout user s env st))
    = map (fun p => with_stock p (stock_quantity p - sold (id p) (cart s)))
          (products st) /\
    (stock_nonneg (products (store (handleCheckout user s env st))) <->
     forall p, In p (products st) -> sold (id p) (cart s) <= stock_quantity p).
Proof.
  intros user s env st Hv Hs Hi Hn Hnd Hquiet.
  pose proof (stock_after_checkout user s env st Hv Hs Hi Hn Hnd Hquiet) as F.
  split; [exact F|].
  rewrite F. unfold stock_nonneg. rewrite Forall_map, Forall_forall. cbn.
  split; intros H p Hp; specialize (H p Hp); lia.
Qed.

(** X10 on the stale page of C1's input and on a page that asks for what
    the store has. *)
Lemma stock_after_example :
  map stock_quantity
      (products (store (handleCheckout "op" stale_page quiet_env
                                       sold_meanwhile_store))) = [-3] /\
  map stock_quantity
      (products (store (handleCheckout "op" overpaid_page quiet_env
                                       small_store))) = [3].
Proof.
  assert (V1 : valid stale_page).
  { repeat split; try discriminate. intros (_ & H & _). discriminate H. }
  assert (V2 : valid overpaid_page).
  { repeat split; try discriminate. intros (_ & _ & H). discriminate H. }
  destruct (handleCheckout_stock_after
              "op" stale_page quiet_env sold_meanwhile_store V1
              eq_refl eq_refl (fun _ => eq_refl)) as (H1 & _).
  { repeat constructor. intros []. }
  { intros pid. split; reflexivity. }
  destruct (handleCheckout_stock_after
              "op" overpaid_page quiet_env small_store V2
              eq_refl eq_refl (fun _ => eq_refl)) as (H2 & _).
  { repeat constructor. intros []. }
  { intros pid. split; reflexivity. }
  rewrite H1, H2. split; reflexivity.
Defined.

Lemma sold_none pid (c : list CartItem) :
  (forall item, In item c -> id (product item) <> pid) -> sold pid c = 0.
Proof.
  induction c as [|item rest IH]; intros Hnot; [reflexivity|].
  cbn. destruct (String.eqb_spec (id (product item)) pid) as [E|_].
  - exfalso. exact (Hnot item (or_introl eq_refl) E).
  - rewrite IH; [reflexivity|]. intros i Hi. apply Hnot. now right.
Qed.

Lemma sold_bound pid bound (c : list CartItem) :
  NoDup (map (fun item => id (product item)) c) ->
  0 <= bound ->
  (forall item, In item c -> id (product item) = pid ->
                quantity item <= bound) ->
  sold pid c <= bound.
Proof.
  induction c as [|item rest IH]; intros Hnd Hb Hq; [cbn; lia|].
  inversion Hnd as [|? ? Hnotin Hnd']; subst. cbn.
  destruct (String.eqb_spec (id (product item)) pid) as [E|_].
  - rewrite sold_none.
    + specialize (Hq item (or_introl eq_refl) E). lia.
    + intros i Hi Ei. apply Hnotin. rewrite E, <- Ei.
      apply (in_map (fun item => id (product item))). exact Hi.
  - cbn. apply IH; try assumption. intros i Hi. apply Hq. now right.
Qed.

(** X11: with a product list that shows the store as it is now, the
    checkout keeps the stock non-negative: on a store with unique product
    identifiers and no negative stock, for a cart with one line per
    product whose lines hold products as the store has them and
    quantities within their stock (the carts the page reaches from a fresh
    list), a checkout that passes the checks and whose requests are all
    served leaves no product with a negative stock. *)
Theorem fresh_page_keeps_stock_nonneg :
  forall (user : string) (s : State) (env : Env) (st : Store.t),
    cart_ok (products st) (cart s) ->
    NoDup (map id (products st)) ->
    stock_nonneg (products st) ->
    valid s ->
    sale_error env = None ->
    items_error env = None ->
    (paymentType s = installment -> installments_error env = None) ->
    (forall pid, stock_select_fails env pid = false /\
                 stock_update_fails env pid = false) ->
    stock_nonneg (products (store (handleCheckout user s env st))).
Proof.
  intros user s env st (Hcnd & Hall) Hnd Hpos Hv Hs Hi Hn Hq.
  rewrite (stock_after_checkout user s env st Hv Hs Hi Hn Hnd Hq).
  unfold stock_nonneg in *. rewrite Forall_map. cbn.
  rewrite Forall_forall in Hpos, Hall |- *.
  intros p Hp.
  assert (sold (id p) (cart s) <= stock_quantity p); [|lia].
  apply sold_bound; [exact Hcnd | now apply Hpos |].
  intros item Hin E.
  destruct (Hall item Hin) as (Hr & Hc).
  assert (product item = p).
  { apply (NoDup_map_inj id (products st)); auto. }
  subst p. unfold in_range in Hr. lia.
Qed.

Lemma valid_overpaid_page : valid overpaid_page.
Proof.
  repeat split; try discriminate. intros (_ & _ & H). discriminate H.
Defined.

(** X11 on the sale of one of the four units the store holds. *)
Lemma fresh_page_example :
  stock_nonneg
    (products (store (handleCheckout "op" overpaid_page quiet_env
                                     small_store))).
Proof.
  apply (fresh_page_keeps_stock_nonneg "op" overpaid_page quiet_env
                                       small_store).
  - split.
    + constructor; [intros [] | constructor].
    + constructor; [|constructor]. split; [|now left].
      unfold in_range. cbn. lia.
  - constructor; [intros [] | constructor].
  - constructor; [cbn; lia | constructor].
  - exact valid_overpaid_page.
  - reflexivity.
  - reflexivity.
  - intros _. reflexivity.
  - intros pid. split; reflexivity.
Defined.

Lemma success_page user s env st :
  alert (handleCheckout user s env st) = "Venda realizada com sucesso!" ->
  page (handleCheckout user s env st) = reset s.
Proof.
  unfold handleCheckout.
  destruct (String.eqb (selectedClient s) ""); [discriminate|].
  destruct (List.length (cart s) =? 0)%nat; [discriminate|].
  destruct (is_cash (paymentType s) && String.eqb (paymentMethod s) "money"
            && Qltb (amountPaid s) (total (cart s))); [discriminate|].
  destruct (checkoutBody user s env st) as [st' [v|e]];
    [reflexivity | discriminate].
Qed.

(** X12: a checkout that succeeded cannot be repeated by submitting
    again: the page it leaves has no client and an empty cart, and a
    checkout from that page writes nothing and asks for a client, whatever
    the store answers. *)
Theorem handleCheckout_not_repeated :
  forall (user : string) (s : State) (env env' : Env) (st : Store.t),
    alert (handleCheckout user s env st) = "Venda realizada com sucesso!" ->
    let out := handleCheckout user s env st in
    cart (page out) = [] /\
    selectedClient (page out) = "" /\
    store (handleCheckout user (page out) env' (store out)) = store out /\
    alert (handleCheckout user (page out) env' (store out))
    = "Selecione um cliente".
Proof.
  intros user s env env' st Hok out. subst out.
  rewrite (success_page user s env st Hok).
  repeat split.
Qed.

(** X12 on the cash sale of the scenario. *)
Lemma not_repeated_example :
  List.length
    (sales (store (handleCheckout "op"
                     (page (handleCheckout "op" overpaid_page quiet_env
                                           small_store))
                     quiet_env
                     (store (handleCheckout "op" overpaid_page quiet_env
                                            small_store))))) = 1%nat.
Proof.
  destruct (handleCheckout_not_repeated
              "op" overpaid_page quiet_env quiet_env small_store eq_refl)
    as (_ & _ & Hst & _).
  rewrite Hst. reflexivity.
Defined.

(** X13: the register is looked up with [.single()]: when the operator
    has no open register, or more than one, a checkout that succeeds
    records no cash transaction, also for an immediate payment. *)
Theorem handleCheckout_needs_one_open_register :
  forall (user : string) (s : State) (env : Env) (st : Store.t),
    alert (handleCheckout user s env st) = "Venda realizada com sucesso!" ->
    List.length (open_registers user st) <> 1%nat ->
    cash_transactions (store (handleCheckout user s env st))
    = cash_transactions st.
Proof.
  intros user s env st Hok Hlen.
  rewrite (success_inv user s env st Hok).
  destruct (after_stock_frame user s env st) as (HR & HT).
  unfold after_ledger.
  destruct (paymentType s); [|exact HT].
  destruct (register_select_fails env); [exact HT|].
  unfold select_open_register, open_registers. rewrite HR.
  fold (open_registers user st).
  destruct (open_registers user st) as [|r [|r' rest]]; cbn in *;
    try exact HT.
  congruence.
Qed.

(** X13 on an operator with two open registers. *)
Lemma two_open_registers_example :
  cash_transactions
    (store (handleCheckout "op" overpaid_page quiet_env
                           Examples.two_register_store)) = [].
Proof.
  apply (handleCheckout_needs_one_open_register
           "op" overpaid_page quiet_env Examples.two_register_store).
  - reflexivity.
  - discriminate.
Defined.

End MoreCheckoutFacts.


(** ** The cash register ledger *)

Section MoreLedgerFacts.
Import Store CashFlow Scenario Examples.

Lemma open_registers_app user st row :
  open_registers user (insert_register row st)
  = open_registers user st
      ++ (if String.eqb (register_user_id row) user && is_open (status row)
          then [row] else []).
Proof. unfold open_registers. cbn. now rewrite filter_app. Qed.

(** X14: [handleOpenRegister] opens a register without looking for one
    that is open: when the insert is accepted the operator has one more
    open register, the page shows the new one, and if the operator had
    an open register before, the lookup with [.single()] that the sales
    and installments pages use finds none from then on. *)
Theorem handleOpenRegister_never_checks :
  forall (user : string) (initialBalance : Q) (s : State) (env : OpenEnv)
         (st : Store.t),
    open_insert_error env = None ->
    let out := handleOpenRegister (Some user) initialBalance s env st in
    exists opened,
      register (page out) = Some opened /\
      register_id opened = new_register_id env /\
      initial_balance opened = initialBalance /\
      open_registers user (store out) = open_registers user st ++ [opened] /\
      (open_registers user st <> [] ->
       select_open_register user (store out) = None).
Proof.
  intros user initialBalance s env st Hins. cbv zeta.
  unfold handleOpenRegister, bind, write. rewrite Hins.
  set (data := {| register_id := new_register_id env;
                  register_user_id := user;
                  opened_at := open_time env; closed_at := None;
                  initial_balance := initialBalance;
                  final_balance := None; status := open |}).
  exists data.
  assert (E : forall st1,
             cash_registers st1 = cash_registers (insert_register data st) ->
             open_registers user st1 = open_registers user st ++ [data]).
  { intros st1 H. unfold open_registers at 1. rewrite H.
    fold (open_registers user (insert_register data st)).
    rewrite open_registers_app. cbn. now rewrite String.eqb_refl. }
  destruct (opening_insert_fails env); cbn [page store register fst snd];
    (split; [reflexivity|]); (split; [reflexivity|]);
    (split; [reflexivity|]);
    (split; [apply E; reflexivity|]);
    intros Hsome; unfold select_open_register;
    rewrite E by reflexivity;
    destruct (open_registers user st) as [|r rest]; try contradiction;
    destruct rest; reflexivity.
Qed.

(** X14 on an operator who has the register "reg-1" open. *)
Lemma open_twice_example :
  select_open_register "op"
    (store (handleOpenRegister (Some "op") (50 # 1) empty_ledger_page
                               open_env small_store)) = None.
Proof.
  destruct (handleOpenRegister_never_checks
              "op" (50 # 1) empty_ledger_page open_env small_store eq_refl)
    as (opened & _ & _ & _ & _ & H).
  apply H. discriminate.
Defined.

Lemma filter_none {A : Type} (f : A -> bool) (l : list A) :
  (forall x, In x l -> f x = false) -> filter f l = [].
Proof.
  induction l as [|x rest IH]; intros H; [reflexivity|].
  cbn. rewrite (H x (or_introl eq_refl)). apply IH.
  intros y Hy. apply H. now right.
Qed.

(** X15: right after a register is opened, when the read of
    [fetchTransactions] is served, the opening entry was accepted and the
    store held no transaction under the new identifier, the transactions of
    the page are the opening entry alone and the balance is the initial
    balance; when the read fails, the page shows the new register with the
    transactions it showed before. *)
Theorem handleOpenRegister_balance :
  forall (user : string) (initialBalance : Q) (s : State) (env : OpenEnv)
         (st : Store.t),
    open_insert_error env = None ->
    let out := handleOpenRegister (Some user) initialBalance s env st in
    (fetch_error env = None ->
     opening_insert_fails env = false ->
     (forall t, In t (cash_transactions st) ->
                tx_register_id t <> new_register_id env) ->
     map (fun t => (type t, amount t)) (transactions (page out))
     = [(opening, initialBalance)] /\
     (calculateBalance (transactions (page out)) == initialBalance)%Q) /\
    (fetch_error env <> None ->
     transactions (page out) = transactions s /\
     exists opened, register (page out) = Some opened /\
                    register_id opened = new_register_id env).
Proof.
  intros user initialBalance s env st Hins. cbv zeta.
  unfold handleOpenRegister, bind, write, ret. rewrite Hins. split.
  - intros Hfetch Hop Hfresh. rewrite Hop, Hfetch.
    cbn [page store transactions fst snd register_id].
    unfold fetchTransactions, select_transactions.
    cbn [cash_transactions insert_transaction insert_register].
    rewrite filter_app, filter_none.
    + cbn. rewrite String.eqb_refl. cbn. split; [reflexivity|].
      unfold calculateBalance. cbn. ring.
    + intros t Ht. apply String.eqb_neq. now apply Hfresh.
  - intros Hfetch. destruct (fetch_error env) as [e|]; [|congruence].
    destruct (opening_insert_fails env);
      cbn [page store transactions register fst snd fetchTransactions];
      (split; [reflexivity|]); eexists; split; reflexivity.
Qed.

(** X15 on the opening of the scenario of C5. *)
Lemma open_balance_example :
  (calculateBalance (transactions (page scenario_opened)) == 100 # 1)%Q.
Proof.
  destruct (handleOpenRegister_balance
              "op" (100 # 1) {| register := None; transactions := [] |}
              {| new_register_id := "reg-1"; open_insert_error := None;
                 opening_insert_fails := false; fetch_error := None;
                 open_time := 1 |}
              (mkStore [mkProduct "p1" "Caderno" "0001" (25 # 1) 10]
                       [] [] [] [] [] [])
              eq_refl) as (Hserved & _).
  apply Hserved; [reflexivity | reflexivity | intros t []].
Defined.

(** X16: the balance does not depend on the order of the transactions,
    and a list of transactions put after another adds its balance to the
    balance of the first. *)
Theorem calculateBalance_order_free :
  forall l l' : list Transaction,
    (calculateBalance (l ++ l') == calculateBalance l + calculateBalance l')%Q
    /\ (Permutation l l' -> (calculateBalance l == calculateBalance l')%Q).
Proof.
  intros l l'. split.
  - rewrite !calculateBalance_signed_sum.
    induction l as [|t rest IH]; cbn [app signed_sum]; [ring|].
    rewrite IH. ring.
  - intros P. rewrite !calculateBalance_signed_sum.
    now apply signed_sum_perm.
Qed.

Lemma close_store (s : State) (env : CloseEnv) (st : Store.t)
      (r : CashRegister) :
  register s = Some r ->
  confirm env = true ->
  close_update_error env = None ->
  let closed_st := close_register (register_id r) (close_time env)
                                  (calculateBalance (transactions s)) st in
  store (handleCloseRegister s env st)
  = if closing_insert_fails env then closed_st
    else insert_transaction
           (closing_row r (calculateBalance (transactions s)) (close_time env))
           closed_st.
Proof.
  intros Hr Hc Hu. cbv zeta. unfold handleCloseRegister.
  rewrite Hr, Hc. cbn [negb]. unfold bind, write, ret. rewrite Hu.
  now destruct (closing_insert_fails env).
Qed.

(** X18: the closing entry is an entry like any other for the balance:
    when the page showed the transactions of the store and the close is
    confirmed and accepted, the balance computed over the transactions of
    the register read again is twice the balance the register was closed
    with (the closing entry is added, not subtracted). *)
Theorem closing_entry_doubles_the_balance :
  forall (s : State) (env : CloseEnv) (st : Store.t) (r : CashRegister),
    register s = Some r ->
    confirm env = true ->
    close_update_error env = None ->
    closing_insert_fails env = false ->
    transactions s = select_transactions (register_id r) st ->
    (calculateBalance
       (select_transactions (register_id r)
                            (store (handleCloseRegister s env st)))
     == 2 * calculateBalance (transactions s))%Q.
Proof.
  intros s env st r Hr Hc Hu Hi Hsync.
  rewrite (close_store s env st r Hr Hc Hu), Hi.
  set (b := calculateBalance (transactions s)).
  rewrite calculateBalance_signed_sum.
  unfold select_transactions at 1.
  rewrite <- (signed_sum_perm _ _ (order_desc_perm _)).
  cbn [cash_transactions insert_transaction close_register].
  rewrite filter_app. cbn [filter closing_row tx_register_id].
  rewrite String.eqb_refl.
  assert (A : forall l t, (signed_sum (l ++ [t])
                           == signed_sum l + signed_amount t)%Q).
  { intros l t. induction l as [|x rest IH]; cbn [app signed_sum]; [ring|].
    rewrite IH. ring. }
  rewrite A. unfold signed_amount at 1. cbn [type amount].
  assert (B : (signed_sum
                 (filter (fun t => String.eqb (tx_register_id t)
                                              (register_id r))
                         (cash_transactions st)) == b)%Q).
  { subst b. rewrite Hsync, calculateBalance_signed_sum.
    unfold select_transactions. apply signed_sum_perm, order_desc_perm. }
  rewrite B. unfold closing_row. cbn [type amount]. ring.
Qed.

(** X18 on the register of 150.00 of C6's example. *)
Lemma closing_entry_example :
  (calculateBalance
     (select_transactions "reg-1"
        (store (handleCloseRegister ledger_page confirmed_close
                                    ledger_store)))
   == 300 # 1)%Q.
Proof.
  rewrite (closing_entry_doubles_the_balance
             ledger_page confirmed_close ledger_store open_register
             eq_refl eq_refl eq_refl eq_refl eq_refl).
  reflexivity.
Defined.

(** X19: when the register of the page is the only open register of the
    operator, a close that is confirmed and accepted leaves the operator
    with no open register (whether or not the closing entry is accepted):
    the lookup of the sales and installments pages finds none. *)
Theorem handleCloseRegister_leaves_none_open :
  forall (s : State) (env : CloseEnv) (st : Store.t) (r : CashRegister)
         (user : string),
    register s = Some r ->
    confirm env = true ->
    close_update_error env = None ->
    open_registers user st = [r] ->
    open_registers user (store (handleCloseRegister s env st)) = [] /\
    select_open_register user (store (handleCloseRegister s env st)) = None.
Proof.
  intros s env st r user Hr Hc Hu Hone.
  assert (E : open_registers user (store (handleCloseRegister s env st))
              = []).
  { rewrite (close_store s env st r Hr Hc Hu).
    assert (F : forall st1,
               cash_registers st1
               = cash_registers
                   (close_register (register_id r) (close_time env)
                      (calculateBalance (transactions s)) st) ->
               open_registers user st1 = []).
    { intros st1 H1. unfold open_registers. rewrite H1.
      cbn [cash_registers close_register].
      apply filter_none. intros row' Hin.
      apply in_map_iff in Hin. destruct Hin as (row & <- & Hin).
      destruct (String.eqb_spec (register_id row) (register_id r)) as [E|N].
      - cbn. apply andb_false_r.
      - destruct (String.eqb (register_user_id row) user
                  && is_open (status row)) eqn:P; [|reflexivity].
        exfalso. apply N.
        assert (Hin' : In row (open_registers user st)).
        { unfold open_registers. apply filter_In. now split. }
        rewrite Hone in Hin'. destruct Hin' as [<-|[]]. reflexivity. }
    destruct (closing_insert_fails env); apply F; reflexivity. }
  split; [exact E|]. unfold select_open_register. now rewrite E.
Qed.

(** X19 on the register of C6's example. *)
Lemma close_leaves_none_example :
  select_open_register "op"
    (store (handleCloseRegister ledger_page confirmed_close ledger_store))
  = None.
Proof.
  apply (handleCloseRegister_leaves_none_open
           ledger_page confirmed_close ledger_store open_register "op");
    reflexivity.
Defined.

End MoreLedgerFacts.


(** ** The installment tracker *)

Section MoreGroupingFacts.
Import Store Installments Scenario Examples.

Variable toLowerCase : string -> string.
Variable localeCompare : string -> string -> Z.
Variable searchTerm : string.
Variable statusFilter : StatusFilter.
Variable viewMode : ViewMode.
Variable now : Z.

Local Abbreviation matches :=
  (matches toLowerCase searchTerm statusFilter viewMode now).
Local Abbreviation addInstallment :=
  (addInstallment toLowerCase searchTerm statusFilter viewMode now).
Local Abbreviation groupsOf :=
  (groupsOf toLowerCase searchTerm statusFilter viewMode now).
Local Abbreviation groupInstallments :=
  (groupInstallments toLowerCase localeCompare searchTerm statusFilter
                     viewMode now).
Local Abbreviation shown_for :=
  (shown_for toLowerCase searchTerm statusFilter viewMode now).
Local Abbreviation groups_ok :=
  (groups_ok toLowerCase searchTerm statusFilter viewMode now).
Local Abbreviation plain_names :=
  (plain_names toLowerCase searchTerm statusFilter viewMode now).

Lemma insert_sorted_perm g (l : list ClientGroup) :
  Permutation (g :: l) (insert_sorted localeCompare g l).
Proof.
  induction l as [|h rest IH]; cbn [insert_sorted]; [reflexivity|].
  destruct (0 <? localeCompare (clientName g) (clientName h));
    [|reflexivity].
  rewrite perm_swap. now apply perm_skip.
Qed.

Lemma sort_groups_perm (l : list ClientGroup) :
  Permutation l (sort_groups localeCompare l).
Proof.
  unfold sort_groups. induction l as [|g rest IH]; cbn [fold_right];
    [reflexivity|].
  rewrite <- insert_sorted_perm. now apply perm_skip.
Qed.

Lemma concat_perm {A : Type} (l l' : list (list A)) :
  Permutation l l' -> Permutation (List.concat l) (List.concat l').
Proof.
  induction 1 as [|x l l' _ IH|x y l|l l' l'' _ IH1 _ IH2]; cbn.
  - reflexivity.
  - now apply Permutation_app_head.
  - rewrite !app_assoc. apply Permutation_app_tail, Permutation_app_comm.
  - now rewrite IH1.
Qed.

Lemma shown_for_cons k i (l : list Installment) :
  shown_for k (i :: l)
  = if matches i && String.eqb (client_name i) k then i :: shown_for k l
    else shown_for k l.
Proof. reflexivity. Qed.

Lemma flat_shown_hidden i (l : list Installment) (keys : list string) :
  (matches i = false \/ ~ In (client_name i) keys) ->
  flat_map (fun k => shown_for k (i :: l)) keys
  = flat_map (fun k => shown_for k l) keys.
Proof.
  intros H. induction keys as [|k rest IH]; [reflexivity|].
  cbn [flat_map]. rewrite shown_for_cons, IH.
  - destruct (matches i) eqn:M; [|reflexivity].
    destruct (String.eqb_spec (client_name i) k) as [E|_]; [|reflexivity].
    exfalso. destruct H as [H|H]; [discriminate|]. apply H. now left.
  - destruct H as [H|H]; [now left|]. right. intros Hin. apply H. now right.
Qed.

Lemma flat_shown_cons i (l : list Installment) (keys : list string) :
  NoDup keys -> matches i = true -> In (client_name i) keys ->
  Permutation (i :: flat_map (fun k => shown_for k l) keys)
              (flat_map (fun k => shown_for k (i :: l)) keys).
Proof.
  induction keys as [|k rest IH]; intros Hnd M Hin; [destruct Hin|].
  inversion Hnd as [|? ? Hnotin Hnd']; subst.
  cbn [flat_map]. rewrite shown_for_cons, M. cbn [andb].
  destruct (String.eqb_spec (client_name i) k) as [E|N].
  - rewrite flat_shown_hidden; [reflexivity|].
    right. now rewrite E.
  - destruct Hin as [Hin|Hin]; [congruence|].
    rewrite <- (IH Hnd' M Hin).
    apply Permutation_middle.
Qed.

Lemma shown_partition (l : list Installment) (keys : list string) :
  NoDup keys ->
  (forall i, In i l -> matches i = true -> In (client_name i) keys) ->
  Permutation (filter matches l) (flat_map (fun k => shown_for k l) keys).
Proof.
  intros Hnd. induction l as [|i rest IH]; intros Hkeys.
  - cbn. induction keys as [|k ks IHk]; [reflexivity|].
    inversion Hnd; subst. cbn. now apply IHk.
  - assert (IH' := IH (fun j Hj => Hkeys j (or_intror Hj))).
    cbn [filter]. destruct (matches i) eqn:M.
    + rewrite <- flat_shown_cons; try assumption.
      * now apply perm_skip.
      * apply Hkeys; [now left | exact M].
    + rewrite flat_shown_hidden; [exact IH' | now left].
Qed.

(** The names under which groups are stored all come from installments
    that are shown. *)
Lemma keys_come_from_shown (l done : list Installment) (groups : Groups) :
  (forall k, In k (map fst groups) ->
             exists i, In i done /\ matches i = true /\ client_name i = k) ->
  forall groups',
    fold_left (fun acc inst =>
                 match acc with
                 | Some groups => addInstallment groups inst
                 | None => None
                 end) l (Some groups) = Some groups' ->
    forall k, In k (map fst groups') ->
              exists i, In i (done ++ l) /\ matches i = true /\
                        client_name i = k.
Proof.
  revert done groups. induction l as [|inst rest IH];
    intros done groups Hkeys groups' E k Hk.
  - cbn in E. injection E as <-. rewrite app_nil_r. now apply Hkeys.
  - cbn [fold_left] in E.
    destruct (addInstallment groups inst) as [groups1|] eqn:A.
    + replace (done ++ inst :: rest) with ((done ++ [inst]) ++ rest)
        by now rewrite <- app_assoc.
      refine (IH (done ++ [inst]) groups1 _ groups' E k Hk).
      intros k1 Hk1.
      assert (Hcases : In k1 (map fst groups) \/
                       (matches inst = true /\ k1 = client_name inst)).
      { unfold Installments.addInstallment in A.
        destruct (matches inst) eqn:M.
        - cbv zeta in A.
          destruct (get (client_name inst)
                        match get (client_name inst) groups with
                        | Undefined => _
                        | _ => groups
                        end) eqn:G; try discriminate.
          injection A as <-.
          assert (K : In k1 (map fst match get (client_name inst) groups with
                                     | Undefined =>
                                         groups ++
                                         [(client_name inst,
                                           {| clientId := client_name inst;
                                              clientName := client_name inst;
                                              installments := [];
                                              totalPending := 0%Q;
                                              totalOverdue := 0%Q |})]
                                     | _ => groups
                                     end)).
          { destruct (status inst); rewrite !update_keys in Hk1; exact Hk1. }
          destruct (get (client_name inst) groups); try (now left).
          rewrite map_app in K. apply in_app_or in K.
          destruct K as [K|[<-|[]]]; [now left | right; now split].
        - injection A as <-. now left. }
      destruct Hcases as [H|(M & ->)].
      * destruct (Hkeys k1 H) as (i & Hi & Mi & Ei).
        exists i. split; [apply in_or_app; now left | now split].
      * exists inst. split; [apply in_or_app; right; now left | now split].
    + exfalso. clear -E.
      induction rest as [|x rest IHr]; cbn in E; [discriminate | auto].
Qed.

(** X20: when no client shown is called like a property of
    [Object.prototype], the groups shown sort the shown installments into
    classes by client name: no two groups carry the same name, no group is
    empty, every group holds the shown installments of its name in the
    order they were fetched, and the groups together hold every
    installment that passes the filters exactly once and no other. *)
Theorem groupInstallments_partitions :
  forall l : list Installment,
    plain_names l ->
    exists shown,
      groupInstallments l = Some shown /\
      NoDup (map clientName shown) /\
      Forall (fun g =>
                installments g <> [] /\
                installments g
                = filter (fun i => matches i
                                   && String.eqb (client_name i)
                                                 (clientName g)) l)
             shown /\
      Permutation (filter matches l) (List.concat (map installments shown)).
Proof.
  intros l Hplain.
  destruct (groupsOf_ok toLowerCase searchTerm statusFilter viewMode now
                        l Hplain) as (groups & E & Hnd & Hgroups & Hall).
  exists (sort_groups localeCompare (map snd groups)).
  split; [unfold Installments.groupInstallments; now rewrite E|].
  assert (Hg : forall k g, In (k, g) groups ->
                           clientName g = k /\ installments g = shown_for k l).
  { intros k g Hin. apply (lookup_In _ _ _ Hnd) in Hin.
    destruct (Hgroups _ _ Hin) as (_ & A & B & _). now split. }
  assert (Hnames : map clientName (map snd groups) = map fst groups).
  { rewrite map_map. apply map_ext_in. intros [k g] Hin. cbn.
    now destruct (Hg k g Hin). }
  assert (Hlists : map installments (map snd groups)
                   = map (fun k => shown_for k l) (map fst groups)).
  { rewrite !map_map. apply map_ext_in. intros [k g] Hin. cbn.
    now destruct (Hg k g Hin). }
  split; [|split].
  - apply (Permutation_NoDup
             (Permutation_map clientName (sort_groups_perm (map snd groups)))).
    now rewrite Hnames.
  - apply Forall_forall. intros g Hin.
    apply (Permutation_in _ (Permutation_sym (sort_groups_perm _))) in Hin.
    apply in_map_iff in Hin. destruct Hin as ([k g'] & Eg & Hin).
    cbn in Eg. subst g'. destruct (Hg k g Hin) as (Hn & Hi).
    split; [|now rewrite Hn, Hi].
    assert (Hk : In k (map fst groups))
      by (change k with (fst (k, g)); now apply in_map).
    unfold Installments.groupsOf in E.
    destruct (keys_come_from_shown l [] [] (fun k0 (H : In k0 []) =>
                match H with end) groups E k Hk) as (i & Hi' & Mi & Ei).
    cbn in Hi'. rewrite Hi. intros Hnil.
    assert (Hin' : In i (shown_for k l)).
    { unfold Installments.shown_for. apply filter_In.
      split; [exact Hi'|]. rewrite Mi, Ei. cbn. apply String.eqb_refl. }
    rewrite Hnil in Hin'. destruct Hin'.
  - rewrite <- (concat_perm _ _ (Permutation_map installments
                                   (sort_groups_perm (map snd groups)))).
    rewrite Hlists, <- flat_map_concat_map.
    apply shown_partition; [exact Hnd|].
    intros i Hi Mi.
    destruct (in_dec string_dec (client_name i) (map fst groups))
      as [Hin|Hnot]; [exact Hin|].
    exfalso. apply lookup_None_keys in Hnot. exact (Hall i Hi Mi Hnot).
Qed.

Lemma insert_sorted_sorted g (l : list ClientGroup) :
  (forall a b, 0 < localeCompare a b -> localeCompare b a <= 0) ->
  (forall a b c, localeCompare a b <= 0 -> localeCompare b c <= 0 ->
                 localeCompare a c <= 0) ->
  StronglySorted (fun x y => localeCompare (clientName x) (clientName y) <= 0)
                 l ->
  StronglySorted (fun x y => localeCompare (clientName x) (clientName y) <= 0)
                 (insert_sorted localeCompare g l).
Proof.
  intros Hanti Htrans.
  induction 1 as [|h rest Hs IH Hall]; cbn [insert_sorted].
  - repeat constructor.
  - destruct (Z.ltb_spec 0 (localeCompare (clientName g) (clientName h)))
      as [Hgt|Hle].
    + constructor; [exact IH|].
      apply (Permutation_Forall (insert_sorted_perm g rest)).
      constructor; [now apply Hanti | exact Hall].
    + constructor; [now constructor|].
      constructor; [exact Hle|].
      apply (Forall_impl _ (P := fun y => localeCompare (clientName h)
                                                        (clientName y) <= 0));
        [|exact Hall].
      intros y Hy. exact (Htrans _ _ _ Hle Hy).
Qed.

(** X21: with a comparison of names that is consistent (when a compares
    after b, b does not compare after a; and not comparing after is
    transitive), the groups are shown in ascending order of client
    name. *)
Theorem groupInstallments_sorted :
  forall (l : list Installment) (shown : list ClientGroup),
    (forall a b, 0 < localeCompare a b -> localeCompare b a <= 0) ->
    (forall a b c, localeCompare a b <= 0 -> localeCompare b c <= 0 ->
                   localeCompare a c <= 0) ->
    groupInstallments l = Some shown ->
    StronglySorted
      (fun x y => localeCompare (clientName x) (clientName y) <= 0) shown.
Proof.
  intros l shown Hanti Htrans E.
  unfold Installments.groupInstallments in E.
  destruct (groupsOf l) as [groups|]; [|discriminate].
  cbn in E. injection E as <-.
  unfold sort_groups.
  induction (map snd groups) as [|g rest IH]; cbn [fold_right];
    [constructor | now apply insert_sorted_sorted].
Qed.

Lemma fold_thrown (l : list Installment) :
  fold_left (fun acc inst =>
               match acc with
               | Some groups => addInstallment groups inst
               | None => None
               end) l None = None.
Proof. induction l as [|x rest IH]; [reflexivity | exact IH]. Qed.

Lemma addInstallment_keeps_plain_keys groups inst groups' :
  (forall k, In k (map fst groups) -> inherited k = false) ->
  addInstallment groups inst = Some groups' ->
  forall k, In k (map fst groups') -> inherited k = false.
Proof.
  intros Hplain A k Hk.
  destruct (matches inst) eqn:M.
  - destruct (inherited (client_name inst)) eqn:I.
    + assert (L : lookup (client_name inst) groups = None).
      { apply lookup_None_keys. intros Hin.
        specialize (Hplain _ Hin). congruence. }
      rewrite (addInstallment_throws toLowerCase searchTerm statusFilter
                 viewMode now groups inst M I L) in A.
      discriminate.
    + destruct (addInstallment_shown toLowerCase searchTerm statusFilter
                  viewMode now groups inst M I) as (g1 & A1 & K1 & _).
      rewrite A1 in A. injection A as <-. rewrite K1 in Hk.
      destruct (lookup (client_name inst) groups); [now apply Hplain|].
      apply in_app_or in Hk. destruct Hk as [Hk|[<-|[]]];
        [now apply Hplain | exact I].
  - rewrite (addInstallment_hidden toLowerCase searchTerm statusFilter
               viewMode now groups inst M) in A.
    injection A as <-. now apply Hplain.
Qed.

Lemma fold_throws (l : list Installment) (groups : Groups) :
  (forall k, In k (map fst groups) -> inherited k = false) ->
  (exists i, In i l /\ matches i = true /\
             inherited (client_name i) = true) ->
  fold_left (fun acc inst =>
               match acc with
               | Some groups => addInstallment groups inst
               | None => None
               end) l (Some groups) = None.
Proof.
  revert groups. induction l as [|inst rest IH];
    intros groups Hplain (i & Hi & Mi & Ii); [destruct Hi|].
  cbn [fold_left].
  destruct (addInstallment groups inst) as [groups1|] eqn:A;
    [|apply fold_thrown].
  destruct Hi as [<-|Hi].
  - assert (L : lookup (client_name inst) groups = None).
    { apply lookup_None_keys. intros Hin.
      specialize (Hplain _ Hin). congruence. }
    rewrite (addInstallment_throws toLowerCase searchTerm statusFilter
               viewMode now groups inst Mi Ii L) in A.
    discriminate.
  - apply IH.
    + now apply (addInstallment_keeps_plain_keys groups inst groups1).
    + now exists i.
Qed.

(** X22: one shown installment of a client called like a property of
    [Object.prototype] ("constructor", "toString", ...) stops the whole
    grouping: the callback throws and no list of groups is produced,
    whatever the other installments are. *)
Theorem groupInstallments_throws :
  forall (l : list Installment) (i : Installment),
    In i l -> matches i = true -> inherited (client_name i) = true ->
    groupInstallments l = None.
Proof.
  intros l i Hi Mi Ii.
  unfold Installments.groupInstallments, Installments.groupsOf.
  rewrite fold_throws; [reflexivity | intros k [] | now exists i].
Qed.

End MoreGroupingFacts.

(** X20 on the installments of the two clients called Ana and of Bia:
    two groups, of three installments and of one. *)
Lemma partition_example :
  exists shown,
    Installments.groupInstallments
      (fun s => s) Scenario.byte_compare "" Installments.all_statuses
      Installments.all_dates 100 Scenario.fetched = Some shown /\
    map Installments.clientName shown = ["Ana"; "Bia"] /\
    map (fun g => List.length (Installments.installments g)) shown
    = [3; 1]%nat.
Proof.
  destruct (groupInstallments_partitions
              (fun s => s) Scenario.byte_compare "" Installments.all_statuses
              Installments.all_dates 100 Scenario.fetched)
    as (shown & E & _).
  - intros i [<-|[<-|[<-|[<-|[]]]]] _; reflexivity.
  - exists shown. split; [exact E|].
    cbv in E. injection E as <-. split; reflexivity.
Defined.

Lemma byte_compare_antisym (a b : string) :
  0 < Scenario.byte_compare a b -> Scenario.byte_compare b a <= 0.
Proof.
  unfold Scenario.byte_compare. rewrite (String.compare_antisym b a).
  destruct (String.compare a b); cbn; lia.
Qed.

Lemma byte_compare_trans (a b c : string) :
  Scenario.byte_compare a b <= 0 -> Scenario.byte_compare b c <= 0 ->
  Scenario.byte_compare a c <= 0.
Proof.
  unfold Scenario.byte_compare. intros Hab Hbc.
  destruct (String.compare a b) eqn:Eab; [| |lia].
  - apply String.compare_eq_iff in Eab. now subst b.
  - destruct (String.compare b c) eqn:Ebc; [| |lia].
    + apply String.compare_eq_iff in Ebc. subst c. now rewrite Eab.
    + apply OrderedTypeEx.String_as_OT.cmp_lt in Eab.
      apply OrderedTypeEx.String_as_OT.cmp_lt in Ebc.
      pose proof (OrderedTypeEx.String_as_OT.lt_trans _ _ _ Eab Ebc) as Hac.
      apply OrderedTypeEx.String_as_OT.cmp_lt in Hac.
      unfold OrderedTypeEx.String_as_OT.cmp in Hac. now rewrite Hac.
Qed.

(** X21 on installments fetched with Bia's first, the names compared by
    code units: the group of Ana is shown before the group of Bia. *)
Lemma sorted_example :
  exists shown,
    Installments.groupInstallments
      (fun s => s) Scenario.byte_compare "" Installments.all_statuses
      Installments.all_dates 100 Examples.bia_first = Some shown /\
    map Installments.clientName shown = ["Ana"; "Bia"] /\
    StronglySorted
      (fun x y => Scenario.byte_compare (Installments.clientName x)
                                        (Installments.clientName y) <= 0)
      shown.
Proof.
  eexists. split; [reflexivity|]. split; [reflexivity|].
  apply (groupInstallments_sorted
           (fun s => s) Scenario.byte_compare "" Installments.all_statuses
           Installments.all_dates 100 Examples.bia_first).
  - exact byte_compare_antisym.
  - exact byte_compare_trans.
  - reflexivity.
Defined.

(** X22 on the same installments with one more, of a client called
    "constructor". *)
Lemma throws_example :
  Installments.groupInstallments
    (fun s => s) Scenario.byte_compare "" Installments.all_statuses
    Installments.all_dates 100
    (Scenario.fetched ++ [Examples.constructor_pending]) = None.
Proof.
  apply (groupInstallments_throws
           (fun s => s) Scenario.byte_compare "" Installments.all_statuses
           Installments.all_dates 100
           (Scenario.fetched ++ [Examples.constructor_pending])
           Examples.constructor_pending).
  - apply in_or_app. right. now left.
  - reflexivity.
  - reflexivity.
Defined.

(** ** Receiving an installment *)

Section PaymentFacts.
Import Store Payment Scenario Examples.

Lemma signed_sum_snoc (l : list Transaction) (t : Transaction) :
  (CashFlow.signed_sum (l ++ [t])
   == CashFlow.signed_sum l + CashFlow.signed_amount t)%Q.
Proof.
  induction l as [|x rest IH]; cbn [app CashFlow.signed_sum]; [ring|].
  rewrite IH. ring.
Qed.

Lemma balance_after_insert (rid : string) (t : Transaction) (st : Store.t) :
  tx_register_id t = rid ->
  (CashFlow.calculateBalance
     (CashFlow.select_transactions rid (insert_transaction t st))
   == CashFlow.calculateBalance (CashFlow.select_transactions rid st)
      + CashFlow.signed_amount t)%Q.
Proof.
  intros Hrid. rewrite !calculateBalance_signed_sum.
  unfold CashFlow.select_transactions.
  rewrite <- !(signed_sum_perm _ _ (order_desc_perm _)).
  cbn [cash_transactions insert_transaction].
  rewrite filter_app. cbn [filter]. rewrite Hrid, String.eqb_refl.
  apply signed_sum_snoc.
Qed.

(** X23: a receipt the store accepts marks every row of the installment
    table with the selected identifier as paid and leaves the other rows
    as they are; when the operator has exactly one open register and the
    store serves the lookup and the insert, one cash transaction of type
    installment_payment is added to it, with the amount of the selection
    and a reference to the installment, and the balance of that register
    goes up by that amount; when the operator has no open register, or
    several, the store is left as it was. *)
Theorem handleConfirmPayment_records :
  forall (user : string) (sel : Selected) (paymentDate : Z)
         (paymentMethod : Method) (env : Env)
         (table : list Installments.Installment) (st : Store.t),
    update_error env = None ->
    let out := handleConfirmPayment (Some user) (Some sel) paymentDate
                                    paymentMethod env table st in
    alert out = None /\
    Forall2 (fun i i' =>
               if String.eqb (Installments.id i) (selected_id sel)
               then i' = with_paid i else i' = i)
            table (rows out) /\
    (forall r,
        register_select_fails env = false ->
        transaction_insert_fails env = false ->
        open_registers user st = [r] ->
        exists tx,
          cash_transactions (store out) = cash_transactions st ++ [tx] /\
          type tx = installment_payment /\
          amount tx = selected_amount sel /\
          tx_installment_id tx = Some (selected_id sel) /\
          tx_register_id tx = register_id r /\
          created_at tx = paymentDate * 86400 + time_of_day env /\
          (CashFlow.calculateBalance
             (CashFlow.select_transactions (register_id r) (store out))
           == CashFlow.calculateBalance
                (CashFlow.select_transactions (register_id r) st)
              + selected_amount sel)%Q) /\
    (List.length (open_registers user st) <> 1%nat -> store out = st).
Proof.
  intros user sel paymentDate paymentMethod env table st Hu. cbv zeta.
  unfold handleConfirmPayment. rewrite Hu. cbn [alert rows store].
  split; [reflexivity|]. split; [|split].
  - unfold mark_paid. induction table as [|i rest IH]; cbn; constructor;
      [|exact IH].
    now destruct (String.eqb (Installments.id i) (selected_id sel)).
  - intros r Hsel Hins Hone. rewrite Hsel, Hins.
    unfold select_open_register. rewrite Hone. cbn [single].
    exists (payment_entry r sel paymentDate paymentMethod env).
    repeat split.
    rewrite balance_after_insert by reflexivity. reflexivity.
  - intros Hlen. destruct (register_select_fails env); [reflexivity|].
    unfold select_open_register.
    destruct (open_registers user st) as [|r [|r' rest]]; cbn in *;
      try reflexivity.
    congruence.
Qed.

(** X23 on the first installment of Ana, received in the register of the
    operator. *)
Lemma confirm_payment_example :
  map Installments.status
      (rows (handleConfirmPayment (Some "op")
               (Some (openPaymentModal ana1_pending)) 130 pix
               {| update_error := None; register_select_fails := false;
                  transaction_insert_fails := false; time_of_day := 3600 |}
               fetched small_store))
  = [overdue; paid; pending; pending] /\
  map amount
      (cash_transactions
         (store (handleConfirmPayment (Some "op")
                   (Some (openPaymentModal ana1_pending)) 130 pix
                   {| update_error := None; register_select_fails := false;
                      transaction_insert_fails := false;
                      time_of_day := 3600 |}
                   fetched small_store)))
  = [10 # 1].
Proof.
  destruct (handleConfirmPayment_records
              "op" (openPaymentModal ana1_pending) 130 pix
              {| update_error := None; register_select_fails := false;
                 transaction_insert_fails := false; time_of_day := 3600 |}
              fetched small_store eq_refl) as (_ & _ & H & _).
  destruct (H (mkCashRegister "reg-1" "op" 1 None (100 # 1) None open)
              eq_refl eq_refl eq_refl) as (tx & E & _ & A & _).
  split; [reflexivity|]. rewrite E. cbn. now rewrite A.
Defined.

(** X24: the receipt never reads the status of the installment: for an
    installment that is already paid, or that the table does not hold,
    the table stays as it is and the cash transaction is recorded all the
    same. *)
Theorem handleConfirmPayment_ignores_status :
  forall (user : string) (sel : Selected) (paymentDate : Z)
         (paymentMethod : Method) (env : Env)
         (table : list Installments.Installment) (st : Store.t)
         (r : CashRegister),
    update_error env = None ->
    register_select_fails env = false ->
    transaction_insert_fails env = false ->
    open_registers user st = [r] ->
    (forall i, In i table -> Installments.id i = selected_id sel ->
               Installments.status i = paid) ->
    let out := handleConfirmPayment (Some user) (Some sel) paymentDate
                                    paymentMethod env table st in
    rows out = table /\
    cash_transactions (store out)
    = cash_transactions st
        ++ [payment_entry r sel paymentDate paymentMethod env].
Proof.
  intros user sel paymentDate paymentMethod env table st r
         Hu Hsel Hins Hone Hpaid. cbv zeta.
  unfold handleConfirmPayment. rewrite Hu, Hsel, Hins.
  unfold select_open_register. rewrite Hone. cbn [single rows store].
  split; [|reflexivity].
  unfold mark_paid. rewrite <- (map_id table) at 2.
  apply map_ext_in. intros i Hin.
  destruct (String.eqb_spec (Installments.id i) (selected_id sel)) as [E|_];
    [|reflexivity].
  specialize (Hpaid i Hin E). destruct i. cbn in *. now subst.
Qed.

(** X24 on the same installment received a second time. *)
Lemma confirm_twice_example :
  List.length
    (cash_transactions
       (store
          (handleConfirmPayment (Some "op")
             (Some (openPaymentModal ana1_pending)) 131 money
             {| update_error := None; register_select_fails := false;
                transaction_insert_fails := false; time_of_day := 60 |}
             (mark_paid "i1" fetched)
             (insert_transaction
                (payment_entry
                   (mkCashRegister "reg-1" "op" 1 None (100 # 1) None open)
                   (openPaymentModal ana1_pending) 130 pix
                   {| update_error := None; register_select_fails := false;
                      transaction_insert_fails := false;
                      time_of_day := 3600 |})
                small_store)))) = 2%nat.
Proof.
  destruct (handleConfirmPayment_ignores_status
              "op" (openPaymentModal ana1_pending) 131 money
              {| update_error := None; register_select_fails := false;
                 transaction_insert_fails := false; time_of_day := 60 |}
              (mark_paid "i1" fetched)
              (insert_transaction
                 (payment_entry
                    (mkCashRegister "reg-1" "op" 1 None (100 # 1) None open)
                    (openPaymentModal ana1_pending) 130 pix
                    {| update_error := None; register_select_fails := false;
                       transaction_insert_fails := false;
                       time_of_day := 3600 |})
                 small_store)
              (mkCashRegister "reg-1" "op" 1 None (100 # 1) None open)
              eq_refl eq_refl eq_refl eq_refl) as (_ & E).
  - intros i [<-|[<-|[<-|[<-|[]]]]]; cbn; intros H;
      try reflexivity; discriminate H.
  - rewrite E. reflexivity.
Defined.

Lemma sumOf_from (st0 : InstallmentStatus)
      (l : list Installments.Installment) (acc : Q) :
  (fold_left (fun acc inst =>
                if Installments.status_eqb (Installments.status inst) st0
                then acc + Installments.amount inst else acc) l acc
   == acc + Sums.sum_counts st0 l)%Q.
Proof.
  revert acc. induction l as [|i rest IH]; intros acc;
    cbn [fold_left Sums.sum_counts].
  - ring.
  - rewrite IH. unfold Sums.counts.
    destruct (Installments.status_eqb (Installments.status i) st0); ring.
Qed.

Lemma sumOf_sum_counts st0 (l : list Installments.Installment) :
  (Installments.sumOf st0 l == Sums.sum_counts st0 l)%Q.
Proof. unfold Installments.sumOf. rewrite sumOf_from. ring. Qed.

Lemma mark_paid_absent rid (l : list Installments.Installment) :
  (forall x, In x l -> Installments.id x <> rid) -> mark_paid rid l = l.
Proof.
  intros H. unfold mark_paid. rewrite <- (map_id l) at 2.
  apply map_ext_in. intros x Hx.
  destruct (String.eqb_spec (Installments.id x) rid) as [E|_];
    [|reflexivity].
  exfalso. exact (H x Hx E).
Qed.

Lemma sum_counts_mark_paid st0 (i : Installments.Installment)
      (l : list Installments.Installment) :
  NoDup (map Installments.id l) -> In i l ->
  (Sums.sum_counts st0 (mark_paid (Installments.id i) l) + Sums.counts st0 i
   == Sums.sum_counts st0 l + Sums.counts st0 (with_paid i))%Q.
Proof.
  induction l as [|x rest IH]; intros Hnd Hin; [destruct Hin|].
  inversion Hnd as [|? ? Hnotin Hnd']; subst.
  cbn [mark_paid map Sums.sum_counts].
  destruct (String.eqb_spec (Installments.id x) (Installments.id i))
    as [E|N].
  - assert (x = i).
    { destruct Hin as [H|H]; [exact H|].
      exfalso. apply Hnotin. rewrite E. now apply in_map. }
    subst x. fold (mark_paid (Installments.id i) rest).
    rewrite mark_paid_absent; [ring|].
    intros y Hy Ey. apply Hnotin. rewrite <- Ey. now apply in_map.
  - destruct Hin as [H|H]; [congruence|].
    fold (mark_paid (Installments.id i) rest).
    specialize (IH Hnd' H).
    assert (R : forall a b c d e : Q,
               (b + c == d + e -> a + b + c == a + d + e)%Q).
    { intros a b c d e Hq.
      rewrite <- !Qplus_assoc. now rewrite Hq. }
    apply R. exact IH.
Qed.

(** X25: receiving a pending installment moves its amount from pending to
    paid: in a table with unique identifiers, after the receipt of a
    pending row opened from that table, the pending sum over the table is
    lower by the amount of the row, the paid sum is higher by it, and the
    overdue sum is the same. *)
Theorem receipt_moves_the_amount :
  forall (user : option string) (i : Installments.Installment)
         (paymentDate : Z) (paymentMethod : Method) (env : Env)
         (table : list Installments.Installment) (st : Store.t),
    update_error env = None ->
    NoDup (map Installments.id table) ->
    In i table ->
    Installments.status i = pending ->
    let out := handleConfirmPayment user (Some (openPaymentModal i))
                                    paymentDate paymentMethod env table st in
    (Installments.sumOf pending (rows out) + Installments.amount i
     == Installments.sumOf pending table)%Q /\
    (Installments.sumOf paid (rows out)
     == Installments.sumOf paid table + Installments.amount i)%Q /\
    (Installments.sumOf overdue (rows out)
     == Installments.sumOf overdue table)%Q.
Proof.
  intros user i paymentDate paymentMethod env table st Hu Hnd Hin Hst.
  cbv zeta. unfold handleConfirmPayment. rewrite Hu. cbn [rows].
  change (selected_id (openPaymentModal i)) with (Installments.id i).
  rewrite !sumOf_sum_counts.
  pose proof (sum_counts_mark_paid pending i table Hnd Hin) as P.
  pose proof (sum_counts_mark_paid paid i table Hnd Hin) as D.
  pose proof (sum_counts_mark_paid overdue i table Hnd Hin) as O.
  unfold Sums.counts, with_paid in P, D, O. cbn in P, D, O.
  rewrite Hst in P, D, O. cbn in P, D, O.
  split; [|split].
  - rewrite P. ring.
  - rewrite <- D. ring.
  - rewrite <- (Qplus_0_r (Sums.sum_counts overdue (mark_paid _ table))).
    rewrite O. ring.
Qed.

(** X25 on the first installment of Ana: 57.00 pending before, 47.00
    after. *)
Lemma receipt_moves_example :
  (Installments.sumOf pending
     (rows (handleConfirmPayment None (Some (openPaymentModal ana1_pending))
              130 pix
              {| update_error := None; register_select_fails := false;
                 transaction_insert_fails := false; time_of_day := 0 |}
              fetched small_store)) + (10 # 1)
   == 57 # 1)%Q.
Proof.
  destruct (receipt_moves_the_amount
              None ana1_pending 130 pix
              {| update_error := None; register_select_fails := false;
                 transaction_insert_fails := false; time_of_day := 0 |}
              fetched small_store eq_refl) as (H & _).
  - repeat constructor; cbn; intuition discriminate.
  - right. now left.
  - reflexivity.
  - rewrite H. reflexivity.
Defined.

End PaymentFacts.

(** ** The label of the payment method of a sale *)

Section LabelFacts.
Import Store SalesHistory Scenario.

Lemma prefix_append (p s : string) : prefix p (p ++ s) = true.
Proof.
  induction p as [|c p IH]; cbn.
  - now destruct s.
  - destruct (ascii_dec c c) as [_|N]; [exact IH | now destruct N].
Qed.

Lemma split_free (s : string) :
  underscore_free s -> split_underscore s = [s].
Proof.
  induction s as [|c rest IH]; [reflexivity|].
  cbn. intros (Hc & Hrest). rewrite Hc, (IH Hrest). reflexivity.
Qed.

Lemma split_head (a b : string) :
  underscore_free a ->
  split_underscore (a ++ String "_" b) = a :: split_underscore b.
Proof.
  induction a as [|c rest IH]; [reflexivity|].
  cbn. intros (Hc & Hrest). rewrite Hc, (IH Hrest). reflexivity.
Qed.

Lemma underscore_free_app (a b : string) :
  underscore_free a -> underscore_free b -> underscore_free (a ++ b).
Proof.
  induction a as [|c rest IH]; [easy|].
  cbn. intros (Hc & Hrest) Hb. split; [exact Hc | now apply IH].
Qed.

Lemma append_assoc3 (a b c : string) :
  ((a ++ b) ++ c = a ++ (b ++ c))%string.
Proof. induction a as [|x a IH]; cbn; [reflexivity | now rewrite IH]. Qed.

Lemma digits_underscore_free (d : Decimal.uint) :
  underscore_free (NilEmpty.string_of_uint d).
Proof. induction d; cbn; auto. Qed.

(** X26: the history decodes what the checkout encodes: for every number
    N of installments, the payment method the checkout writes on a sale
    paid by installment is shown by the sales history as "Crédito (Nx)",
    N in decimal. *)
Theorem history_label_of_installment_sale :
  forall (user : string) (s : Sales.State) (env : Sales.Env),
    Sales.paymentType s = Sales.installment ->
    formatPaymentMethod (payment_method (Sales.the_sale user s env))
    = Some ("Crédito (" ++ string_of_nat (Sales.installments s) ++ "x)")%string.
Proof.
  intros user s env Hp. unfold Sales.the_sale. cbn [payment_method].
  rewrite Hp. unfold formatPaymentMethod.
  rewrite prefix_append.
  change ("credit_card_" ++ string_of_nat (Sales.installments s) ++ "x")%string
    with ("credit" ++ String "_"
            ("card" ++ String "_"
               (string_of_nat (Sales.installments s) ++ "x")))%string.
  rewrite split_head by (repeat split).
  rewrite split_head by (repeat split).
  rewrite split_free.
  - cbn [nth]. now rewrite append_assoc3.
  - apply underscore_free_app; [apply digits_underscore_free | repeat split].
Qed.

(** X26 on the sale in 3 installments of the scenario. *)
Lemma history_label_example :
  formatPaymentMethod
    (payment_method
       (nth 0 (sales (Sales.store (Sales.handleCheckout
                                     "op" installment_page quiet_env
                                     two_product_store)))
            (mkSale "" "" "" 0 "")))
  = Some "Crédito (3x)".
Proof.
  exact (history_label_of_installment_sale "op" installment_page quiet_env
                                           eq_refl).
Defined.

End LabelFacts.

(** ** Stock adjustments and purchases *)

Section MoreStockFacts.
Import Store Scenario.

(** X27: the manual adjustment works from the stock the modal was opened
    with: a result below zero is refused with its message and nothing is
    written; an accepted result becomes the stock of every row of the
    product, whatever the store held for it, and the other products are
    left alone; and no adjustment, whatever quantity is typed, takes a
    stock that was not negative below zero. *)
Theorem stockModal_adjusts_or_refuses :
  forall (product : Product) (quantity : Z) (type : StockModal.Operation)
         (error : option string) (st : Store.t),
    let newQuantity :=
      match type with
      | StockModal.add => stock_quantity product + quantity
      | StockModal.remove => stock_quantity product - quantity
      end in
    let out := StockModal.handleSubmit product quantity type error st in
    (newQuantity < 0 ->
     out = (st, Some "O estoque não pode ficar negativo")) /\
    (0 <= newQuantity -> error = None ->
     snd out = None /\
     Forall2 (fun p p' =>
                if String.eqb (id p) (id product)
                then p' = with_stock p newQuantity else p' = p)
             (products st) (products (fst out))) /\
    (stock_nonneg (products st) -> stock_nonneg (products (fst out))).
Proof.
  intros product quantity type error st. cbv zeta.
  split; [|split].
  - intros Hneg. unfold StockModal.handleSubmit.
    destruct (Z.ltb_spec (match type with
                          | StockModal.add => stock_quantity product + quantity
                          | StockModal.remove =>
                              stock_quantity product - quantity
                          end) 0); [reflexivity | lia].
  - intros Hpos ->. unfold StockModal.handleSubmit.
    destruct (Z.ltb_spec (match type with
                          | StockModal.add => stock_quantity product + quantity
                          | StockModal.remove =>
                              stock_quantity product - quantity
                          end) 0); [lia|].
    cbn. split; [reflexivity|].
    induction (products st) as [|p rest IH]; cbn; constructor; [|exact IH].
    now destruct (String.eqb (id p) (id product)).
  - apply stockModal_keeps_stock_nonneg.
Qed.

(** X28: a purchase whose requests are accepted is recorded and, for a
    product the page lists, sets the stock of the product to the stock
    the page listed plus the quantity bought, whatever the store held
    for it; for a product the page does not list the purchase is recorded
    with the alert of success and no stock is changed. *)
Theorem purchase_adds_to_the_listed_stock :
  forall (listed : list Product) (newPurchase : Stock.NewPurchase)
         (env : Stock.Env) (st : Store.t),
    (Stock.has_file newPurchase = true -> Stock.upload_error env = None) ->
    Stock.insert_error env = None ->
    Stock.update_error env = None ->
    let out := Stock.handleSubmit listed newPurchase env st in
    snd out = "Compra registrada com sucesso!" /\
    purchases (fst out)
    = purchases st ++ [ {| purchase_product_id := Stock.product_id newPurchase;
                           purchase_quantity := Stock.quantity newPurchase |} ]
    /\
    match js_find (fun p => String.eqb (id p) (Stock.product_id newPurchase))
                  listed with
    | Some product =>
        Forall2 (fun p p' =>
                   if String.eqb (id p) (Stock.product_id newPurchase)
                   then p' = with_stock p (stock_quantity product
                                           + Stock.quantity newPurchase)
                   else p' = p)
                (products st) (products (fst out))
    | None => products (fst out) = products st
    end.
Proof.
  intros listed newPurchase env st Hup Hins Hupd. cbv zeta.
  unfold Stock.handleSubmit, bind, write, ret, throw.
  destruct (Stock.has_file newPurchase);
    [rewrite (Hup eq_refl)|]; rewrite Hins;
    (destruct (js_find _ listed) as [product|]; [|repeat split]);
    rewrite Hupd; cbn; repeat split;
    (induction (products st) as [|p rest IH]; cbn; constructor; [|exact IH]);
    now destruct (String.eqb (id p) (Stock.product_id newPurchase)).
Qed.

(** X28 on a purchase of one unit entered on a page that listed five while
    the store is down to two: the store ends with six. *)
Lemma purchase_example :
  snd (Stock.handleSubmit [caderno 5]
         {| Stock.product_id := "p1"; Stock.quantity := 1;
            Stock.has_file := false |}
         {| Stock.upload_error := None; Stock.insert_error := None;
            Stock.update_error := None |}
         sold_meanwhile_store) = "Compra registrada com sucesso!" /\
  map stock_quantity
      (products
         (fst (Stock.handleSubmit [caderno 5]
                 {| Stock.product_id := "p1"; Stock.quantity := 1;
                    Stock.has_file := false |}
                 {| Stock.upload_error := None; Stock.insert_error := None;
                    Stock.update_error := None |}
                 sold_meanwhile_store))) = [6].
Proof.
  destruct (purchase_adds_to_the_listed_stock
              [caderno 5]
              {| Stock.product_id := "p1"; Stock.quantity := 1;
                 Stock.has_file := false |}
              {| Stock.upload_error := None; Stock.insert_error := None;
                 Stock.update_error := None |}
              sold_meanwhile_store (fun _ => eq_refl) eq_refl eq_refl)
    as (Hal & _ & _).
  split; [exact Hal | reflexivity].
Defined.

End MoreStockFacts.
